(** * Governance core of the clinical-trial data platform

    A shallow embedding of the three decision-making parts of the
    repository, and the properties of them that the design document states:

    - [src/governance/data_contracts.py]: schema contracts, schema-change
      detection, value checks and the accept / alert / quarantine decision;
    - [src/data_quality/validators.py]: the rule-based validation engine and
      the aggregate status of its report;
    - [src/data_quality/lineage_tracker.py]: the lineage index and the
      bounded breadth-first upstream / downstream queries.

    Python dictionaries and sets are finite maps and finite sets (stdpp's
    [gmap] and [gset]); Python exceptions are the [Raise] results of a small
    error monad; floating-point ratios are exact rationals. *)

From Stdlib Require Import QArith.
From stdpp Require Import gmap strings list.

Local Open Scope string_scope.

(** ** Exceptions *)

Module Py.

(** A raised exception: its class name and [str(e)]. *)
Record exn := Exn { exn_class : string; exn_str : string }.

Inductive outcome (A : Type) : Type :=
| Ok (a : A)
| Raise (e : exn).
Arguments Ok {A} a.
Arguments Raise {A} e.

Definition bind {A B} (m : outcome A) (k : A -> outcome B) : outcome B :=
  match m with
  | Ok a => k a
  | Raise e => Raise e
  end.

Definition is_ok {A} (m : outcome A) : bool :=
  match m with Ok _ => true | Raise _ => false end.

(** Evaluation of [f] on every element, left to right, stopping at the
    first exception. *)
Fixpoint mapM {A B} (f : A -> outcome B) (l : list A) : outcome (list B) :=
  match l with
  | [] => Ok []
  | x :: l' =>
      bind (f x) (fun y => bind (mapM f l') (fun ys => Ok (y :: ys)))
  end.

(** ['needle' in haystack] on strings. *)
Fixpoint starts_with (p s : string) : bool :=
  match p, s with
  | EmptyString, _ => true
  | String a p', String b s' => Ascii.eqb a b && starts_with p' s'
  | String _ _, EmptyString => false
  end.

Fixpoint str_in (needle haystack : string) : bool :=
  starts_with needle haystack
  || match haystack with
     | EmptyString => false
     | String _ h' => str_in needle h'
     end.

End Py.

#[global] Instance outcome_ret : MRet Py.outcome := fun A a => Py.Ok a.
#[global] Instance outcome_bind : MBind Py.outcome :=
  fun A B k m => Py.bind m k.

(** ** The tabular dataset

    A [pandas.DataFrame] as far as the governance code reads it: the column
    labels with their dtype strings, and the rows.  A cell is [None], NaN,
    a number or a text.  A label may occur more than once.  [len(df)] is
    the number of rows, the same for every column. *)

Module Pandas.
Import Py.

(** A cell holds [None], NaN, a number or a text. *)
Inductive cell := PyNone | NaN | Num (q : Q) | Str (s : string).

Record DataFrame := {
  df_columns : list (string * string);  (* label, str(dtype) *)
  df_rows    : list (list cell)
}.

Definition len (df : DataFrame) : nat := length (df_rows df).

(** [pd.DataFrame()] *)
Definition empty_frame : DataFrame := {| df_columns := []; df_rows := [] |}.

(** [df.columns] *)
Definition columns (df : DataFrame) : list string := map fst (df_columns df).

(** [col in df.columns] *)
Definition has_column (df : DataFrame) (col : string) : bool :=
  bool_decide (col ∈ columns df).

Fixpoint position (col : string) (labels : list string) : option nat :=
  match labels with
  | [] => None
  | l :: labels' =>
      if String.eqb col l then Some 0%nat
      else S <$> position col labels'
  end.

(** The cells under a label, one per row. *)
Definition column (df : DataFrame) (col : string) : list cell :=
  match position col (columns df) with
  | Some i => map (fun row => nth i row PyNone) (df_rows df)
  | None => []
  end.

(** Every index at which a label occurs: pandas allows a label more than
    once. *)
Fixpoint positions (col : string) (labels : list string) : list nat :=
  match labels with
  | [] => []
  | l :: labels' =>
      let rest := map S (positions col labels') in
      if String.eqb col l then 0%nat :: rest else rest
  end.

(** What [df[col]] is: a Series, with its dtype, when the label occurs
    once, and a DataFrame of the columns of that label when it occurs
    more than once. *)
Inductive item :=
| Series (dtype : string) (data : list cell)
| Frame (dtypes : list string) (rows : list (list cell)).

(** [df[col]], a [KeyError] for a label that the dataset does not have. *)
Definition getitem (df : DataFrame) (col : string) : outcome item :=
  let dtypes := map snd (df_columns df) in
  match positions col (columns df) with
  | [] => Raise (Exn "KeyError" ("'" ++ col ++ "'"))
  | [i] =>
      Ok (Series (nth i dtypes "")
                 (map (fun row => nth i row PyNone) (df_rows df)))
  | found =>
      Ok (Frame (map (fun i => nth i dtypes "") found)
                (map (fun row => map (fun i => nth i row PyNone) found)
                     (df_rows df)))
  end.

(** [str(df[col].dtype)]: a DataFrame has no [dtype], so that a duplicated
    label gives an [AttributeError]. *)
Definition no_dtype : exn :=
  Exn "AttributeError" "'DataFrame' object has no attribute 'dtype'".

Definition dtype_of (df : DataFrame) (col : string) : outcome string :=
  col_data ← getitem df col;
  match col_data with
  | Series dtype _ => Ok dtype
  | Frame _ _ => Raise no_dtype
  end.

(** [df.empty]: some axis has length zero. *)
Definition empty (df : DataFrame) : bool :=
  match df_columns df, df_rows df with
  | [], _ | _, [] => true
  | _, _ => false
  end.

Definition isna (c : cell) : bool :=
  match c with PyNone | NaN => true | _ => false end.

(** Equality of two cells as [Series.duplicated] and [isin] see it: NaN
    is equal to NaN and [None] to [None], but [None] is not equal to NaN;
    numbers by value, texts by characters. *)
Definition cell_eqb (a b : cell) : bool :=
  match a, b with
  | PyNone, PyNone => true
  | NaN, NaN => true
  | Num p, Num q => Qeq_bool p q
  | Str s, Str t => String.eqb s t
  | _, _ => false
  end.

Definition isin (c : cell) (values : list cell) : bool :=
  existsb (cell_eqb c) values.

(** [series.duplicated()]: a row is flagged when an equal cell occurred
    above it. *)
Fixpoint duplicated_from (seen : list cell) (l : list cell) : list bool :=
  match l with
  | [] => []
  | c :: l' => isin c seen :: duplicated_from (c :: seen) l'
  end.

Definition duplicated (l : list cell) : list bool := duplicated_from [] l.

(** [frame.duplicated()]: a row is flagged when an equal row occurred
    above it; two rows are equal when they agree column by column, and in
    a column every null agrees with every null. *)
Definition cell_same (a b : cell) : bool :=
  (isna a && isna b) || cell_eqb a b.

Fixpoint row_same (r s : list cell) : bool :=
  match r, s with
  | [], [] => true
  | a :: r', b :: s' => cell_same a b && row_same r' s'
  | _, _ => false
  end.

Fixpoint duplicated_rows_from (seen rows : list (list cell)) : list bool :=
  match rows with
  | [] => []
  | r :: rows' =>
      existsb (row_same r) seen :: duplicated_rows_from (r :: seen) rows'
  end.

Definition duplicated_rows (rows : list (list cell)) : list bool :=
  duplicated_rows_from [] rows.

(** [cell < bound] and [cell > bound]: false on a null, and a
    [TypeError] on a text, which Python does not order against a
    number. *)
Definition lt_scalar (bound : Q) (c : cell) : outcome bool :=
  match c with
  | PyNone | NaN => Ok false
  | Num q => Ok (negb (Qle_bool bound q))
  | Str _ => Raise (Exn "TypeError" "'<' not supported between instances of 'str' and 'float'")
  end.

Definition gt_scalar (bound : Q) (c : cell) : outcome bool :=
  match c with
  | PyNone | NaN => Ok false
  | Num q => Ok (negb (Qle_bool q bound))
  | Str _ => Raise (Exn "TypeError" "'>' not supported between instances of 'str' and 'float'")
  end.

(** The dtypes whose columns pandas compares with a number cell by cell:
    the integer, float and bool dtypes, [object] and [string].  For every
    other dtype (datetime64, timedelta64, category, ...) the comparison is
    refused for the column as a whole. *)
Definition elementwise (dtype : string) : bool :=
  existsb (fun kind => str_in kind dtype)
          ["int"; "Int"; "float"; "Float"; "bool"; "object"; "string"].

(** [series < bound] and [series > bound]: a [TypeError] by dtype, also
    for a column without rows, or else cell by cell. *)
Definition compare_series (cmp : Q -> cell -> outcome bool) (dtype : string)
    (bound : Q) (data : list cell) : outcome (list bool) :=
  if elementwise dtype then mapM (cmp bound) data
  else Raise (Exn "TypeError"
                  ("Invalid comparison between dtype=" ++ dtype ++ " and float")).

(** [mask.sum()] *)
Definition count_true (mask : list bool) : nat :=
  length (filter (fun b => b = true) mask).

End Pandas.

(** ** Data contracts ([src/governance/data_contracts.py]) *)

Module DataContracts.
Import Py Pandas.

Inductive CompatibilityMode := BACKWARD | FORWARD | FULL | NONE.

Inductive ChangeType :=
| COLUMN_ADDED | COLUMN_REMOVED | TYPE_CHANGED | NULLABLE_CHANGED
| CONSTRAINT_ADDED | CONSTRAINT_REMOVED.

#[global] Instance CompatibilityMode_eq_dec : EqDecision CompatibilityMode.
Proof. solve_decision. Defined.

#[global] Instance ChangeType_eq_dec : EqDecision ChangeType.
Proof. solve_decision. Defined.

Record SchemaChange := {
  change_type : ChangeType;
  column_name : string;
  old_value   : option string;
  new_value   : option string;
  is_breaking : bool;
  description : string
}.

Record ColumnContract := {
  name            : string;
  dtype           : string;
  nullable        : bool;
  unique          : bool;
  allowed_values  : list cell;
  min_value       : option Q;
  max_value       : option Q;
  pattern         : option string;
  col_description : string
}.

Record DataContract := {
  contract_name      : string;
  version            : string;
  domain             : string;
  contract_description : string;
  owner              : string;
  contract_columns   : list ColumnContract;
  compatibility_mode : CompatibilityMode;
  primary_key        : list string;
  foreign_keys       : list (string * string);
  created_at         : string;
  updated_at         : string
}.

(** [CompatibilityMode(value)]: the enum member with that value, or a
    [ValueError]. *)
Definition CompatibilityMode_of_value (value : string) : outcome CompatibilityMode :=
  if String.eqb value "backward" then Ok BACKWARD
  else if String.eqb value "forward" then Ok FORWARD
  else if String.eqb value "full" then Ok FULL
  else if String.eqb value "none" then Ok NONE
  else Raise (Exn "ValueError" ("'" ++ value ++ "' is not a valid CompatibilityMode")).

(** *** ContractValidator *)

Record ContractValidator := {
  contract   : DataContract;
  column_map : gmap string ColumnContract
}.

(** [ContractValidator.__init__]: [{c.name: c for c in contract.columns}],
    a later column of the same name replacing an earlier one. *)
Definition new_validator (contract : DataContract) : ContractValidator :=
  {| contract := contract;
     column_map := foldl (fun m c => <[name c := c]> m) ∅
                         (contract_columns contract) |}.

Definition _normalize_dtype (dtype_str : string) : string :=
  if str_in "int" dtype_str then "int64"
  else if str_in "float" dtype_str then "float64"
  else if str_in "object" dtype_str || str_in "string" dtype_str then "string"
  else if str_in "datetime" dtype_str then "datetime64"
  else if str_in "bool" dtype_str then "boolean"
  else dtype_str.

Definition _types_compatible (expected actual : string) : bool :=
  if String.eqb expected actual then true
  else if String.eqb expected "float64" && String.eqb actual "int64" then true
  else if String.eqb expected "string"
          && (String.eqb actual "string" || String.eqb actual "object") then true
  else false.

(** The dtype that the contract declares for a column of [column_map]. *)
Definition declared_dtype (self : ContractValidator) (col : string) : string :=
  match column_map self !! col with
  | Some c => dtype c
  | None => ""
  end.

(** [detect_schema_changes]: three loops, over the set differences and the
    intersection of the labels.  Python leaves the iteration order of a
    set open; here it is the order of [elements].  The first and the third
    loop read [df[col].dtype], which raises for a duplicated label. *)
Definition detect_schema_changes (self : ContractValidator) (df : DataFrame)
  : outcome (list SchemaChange) :=
  let incoming_columns : gset string := list_to_set (columns df) in
  let contract_columns : gset string := dom (column_map self) in
  let mode := compatibility_mode (contract self) in
  added ←
    mapM (fun col =>
            new_dtype ← dtype_of df col;
            Ok {| change_type := COLUMN_ADDED;
                  column_name := col;
                  old_value := None;
                  new_value := Some new_dtype;
                  is_breaking := bool_decide (mode = FORWARD);
                  description := "New column '" ++ col
                                 ++ "' detected in incoming data" |})
         (elements (incoming_columns ∖ contract_columns));
  let removed :=
    map (fun col =>
           {| change_type := COLUMN_REMOVED;
              column_name := col;
              old_value := Some (declared_dtype self col);
              new_value := None;
              is_breaking := bool_decide (mode ∈ [BACKWARD; FULL]);
              description := "Required column '" ++ col ++ "' missing from incoming data" |})
        (elements (contract_columns ∖ incoming_columns)) in
  changed ←
    mapM (fun col =>
            let expected_dtype := declared_dtype self col in
            dtype ← dtype_of df col;
            let actual_dtype := _normalize_dtype dtype in
            if negb (_types_compatible expected_dtype actual_dtype) then
              Ok (Some {| change_type := TYPE_CHANGED;
                          column_name := col;
                          old_value := Some expected_dtype;
                          new_value := Some actual_dtype;
                          is_breaking := true;
                          description := "Column '" ++ col ++ "' type changed from "
                                         ++ expected_dtype ++ " to " ++ actual_dtype |})
            else Ok None)
         (elements (incoming_columns ∩ contract_columns));
  Ok (added ++ removed ++ omap id changed)%list.

(** One entry of a column's ["checks"] list. *)
Record Check := {
  check              : string;
  passed             : bool;
  check_failed_count : nat
}.

Record ColumnResult := {
  column_label : string;
  checks       : list Check;
  failed_count : nat
}.

Definition add_check (r : ColumnResult) (label : string) (n : nat) : ColumnResult :=
  {| column_label := column_label r;
     checks := checks r ++ [ {| check := label;
                                passed := bool_decide (n = 0%nat);
                                check_failed_count := n |} ];
     failed_count := (failed_count r + n)%nat |}.

(** [int(count)] where the count is the Series of per-column counts that
    [sum] gives on a DataFrame. *)
Definition int_of_series : exn :=
  Exn "TypeError" "cannot convert the series to <class 'int'>".

(** The body of the loop of [validate_values] for a column that the
    dataset has: the five checks in their fixed order.  When the label is
    duplicated, [col_data] is a DataFrame: its [duplicated] looks at whole
    rows and the count is a number, while the counts of the other four
    checks are Series, on which [int] raises a [TypeError] (for a bound
    the comparison may raise one before). *)
Definition validate_column (col_contract : ColumnContract) (col_data : item)
  : outcome ColumnResult :=
  let col_results := {| column_label := name col_contract;
                        checks := []; failed_count := 0 |} in
  col_results ←
    (if negb (nullable col_contract) then
       match col_data with
       | Series _ data =>
           let null_count := count_true (map isna data) in
           Ok (add_check col_results "not_null" null_count)
       | Frame _ _ => Raise int_of_series
       end
     else Ok col_results);
  let col_results :=
    if unique col_contract then
      let dup_count :=
        match col_data with
        | Series _ data => count_true (duplicated data)
        | Frame _ rows => count_true (duplicated_rows rows)
        end in
      add_check col_results "unique" dup_count
    else col_results in
  col_results ←
    match allowed_values col_contract with
    | [] => Ok col_results
    | allowed =>
        match col_data with
        | Series _ data =>
            let invalid :=
              map (fun c => negb (isin c allowed) && negb (isna c)) data in
            Ok (add_check col_results "allowed_values" (count_true invalid))
        | Frame _ _ => Raise int_of_series
        end
    end;
  col_results ←
    match min_value col_contract with
    | Some bound =>
        match col_data with
        | Series dtype data =>
            mask ← compare_series lt_scalar dtype bound data;
            Ok (add_check col_results "min_value" (count_true mask))
        | Frame _ _ => Raise int_of_series
        end
    | None => Ok col_results
    end;
  match max_value col_contract with
  | Some bound =>
      match col_data with
      | Series dtype data =>
          mask ← compare_series gt_scalar dtype bound data;
          Ok (add_check col_results "max_value" (count_true mask))
      | Frame _ _ => Raise int_of_series
      end
  | None => Ok col_results
  end.

(** [validate_values]: the result dictionary, keyed by column name. *)
Fixpoint validate_columns (df : DataFrame) (cols : list ColumnContract)
    (results : gmap string ColumnResult) : outcome (gmap string ColumnResult) :=
  match cols with
  | [] => Ok results
  | col_contract :: cols' =>
      let col_name := name col_contract in
      if negb (has_column df col_name) then validate_columns df cols' results
      else
        col_data ← getitem df col_name;
        col_results ← validate_column col_contract col_data;
        validate_columns df cols' (<[col_name := col_results]> results)
  end.

Definition validate_values (self : ContractValidator) (df : DataFrame)
  : outcome (gmap string ColumnResult) :=
  validate_columns df (contract_columns (contract self)) ∅.

Record ContractValidationResult := {
  res_contract_name    : string;
  res_contract_version : string;
  schema_changes       : list SchemaChange;
  has_breaking_changes : bool;
  value_validation     : gmap string ColumnResult;
  total_records        : nat;
  failed_records       : nat;
  is_valid             : bool;
  action               : string
}.

(** [sum(v["failed_count"] for v in value_validation.values())] *)
Definition sum_failed (value_validation : gmap string ColumnResult) : nat :=
  map_fold (fun _ v acc => (failed_count v + acc)%nat) 0%nat value_validation.

(** [failed_records / len(df)]: true division, a [ZeroDivisionError] on a
    zero divisor. *)
Definition true_div (a b : nat) : outcome Q :=
  match b with
  | O => Raise (Exn "ZeroDivisionError" "division by zero")
  | S _ => Ok (inject_Z (Z.of_nat a) / inject_Z (Z.of_nat b))%Q
  end.

(** [validate_against_contract].  The schema hash and the timestamp of the
    result are left out: the first is an MD5 digest, the second the
    clock, and the decision reads neither. *)
Definition validate_against_contract (df : DataFrame) (contract : DataContract)
  : outcome ContractValidationResult :=
  let validator := new_validator contract in
  schema_changes ← detect_schema_changes validator df;
  let has_breaking := existsb is_breaking schema_changes in
  value_validation ← validate_values validator df;
  let failed_records := sum_failed value_validation in
  decision ←
    (if has_breaking then Ok ("quarantine", false)
     else if bool_decide (0 < failed_records)%nat then
       ratio ← true_div failed_records (len df);
       if negb (Qle_bool ratio (5 # 100)) then Ok ("quarantine", false)
       else Ok ("alert", true)
     else
       match schema_changes with
       | _ :: _ => Ok ("alert", true)
       | [] => Ok ("accept", true)
       end);
  Ok {| res_contract_name := contract_name contract;
        res_contract_version := version contract;
        schema_changes := schema_changes;
        has_breaking_changes := has_breaking;
        value_validation := value_validation;
        total_records := len df;
        failed_records := failed_records;
        is_valid := snd decision;
        action := fst decision |}.

End DataContracts.

(** ** The validation engine ([src/data_quality/validators.py]) *)

Module Validators.
Import Py Pandas.

Inductive ValidationSeverity := ERROR | WARNING | INFO.

Inductive ValidationStatus := PASSED | FAILED | PASSED_WITH_WARNINGS.

#[global] Instance ValidationSeverity_eq_dec : EqDecision ValidationSeverity.
Proof. solve_decision. Defined.

#[global] Instance ValidationStatus_eq_dec : EqDecision ValidationStatus.
Proof. solve_decision. Defined.

(** The result of one rule.  Its timestamp, like that of the report, is
    the clock at creation and is left out. *)
Record ValidationResult := {
  rule_name          : string;
  description        : string;
  severity           : ValidationSeverity;
  passed             : bool;
  records_checked    : nat;
  records_failed     : nat;
  failure_percentage : Q;
  failed_record_ids  : list cell;
  details            : gmap string string
}.

Record DataQualityReport := {
  report_domain  : string;
  source_path    : string;
  total_records  : nat;
  status         : ValidationStatus;
  report_results : list ValidationResult
}.

(** An entry of [self.rules].  The validation function is Python code: it
    returns the verdict with the failing rows, or raises. *)
Record Rule := {
  name             : string;
  rule_description : string;
  func             : DataFrame -> outcome (bool * DataFrame);
  rule_severity    : ValidationSeverity
}.

Record ClinicalDataValidator := {
  domain  : string;
  rules   : list Rule;
  results : list ValidationResult
}.

(** [ClinicalDataValidator.__init__] *)
Definition new_validator (domain : string) : ClinicalDataValidator :=
  {| domain := domain; rules := []; results := [] |}.

(** [add_rule]: one [append] to [self.rules]. *)
Definition add_rule (self : ClinicalDataValidator) (name description : string)
    (validation_func : DataFrame -> outcome (bool * DataFrame))
    (severity : ValidationSeverity) : ClinicalDataValidator :=
  {| domain := domain self;
     rules := rules self ++ [ {| name := name;
                                 rule_description := description;
                                 func := validation_func;
                                 rule_severity := severity |} ];
     results := results self |}.

(** The [try] block of the loop of [validate]. *)
Definition try_rule (rule : Rule) (df : DataFrame) (id_column : string)
    (total_records : nat) : outcome ValidationResult :=
  '(passed, failed_df) ← func rule df;
  let records_failed := len failed_df in
  let failure_pct :=
    if bool_decide (0 < total_records)%nat
    then (inject_Z (Z.of_nat records_failed)
          / inject_Z (Z.of_nat total_records) * 100)%Q
    else 0%Q in
  let failed_ids :=
    if negb (empty failed_df) && has_column failed_df id_column
    then column failed_df id_column
    else [] in
  Ok {| rule_name := name rule;
        description := rule_description rule;
        severity := rule_severity rule;
        passed := passed;
        records_checked := total_records;
        records_failed := records_failed;
        failure_percentage := failure_pct;
        failed_record_ids := failed_ids;
        details := ∅ |}.

(** The [try] block together with its [except Exception] handler. *)
Definition run_rule (rule : Rule) (df : DataFrame) (id_column : string)
    (total_records : nat) : ValidationResult :=
  match try_rule rule df id_column total_records with
  | Ok result => result
  | Raise e =>
      {| rule_name := name rule;
         description := rule_description rule;
         severity := ERROR;
         passed := false;
         records_checked := total_records;
         records_failed := total_records;
         failure_percentage := 100%Q;
         failed_record_ids := [];
         details := {[ "error" := exn_str e ]} |}
  end.

Definition failed_with (s : ValidationSeverity) (r : ValidationResult) : bool :=
  negb (passed r) && bool_decide (severity r = s).

Definition overall_status (results : list ValidationResult) : ValidationStatus :=
  let has_errors := existsb (failed_with ERROR) results in
  let has_warnings := existsb (failed_with WARNING) results in
  if has_errors then FAILED
  else if has_warnings then PASSED_WITH_WARNINGS
  else PASSED.

(** [validate]: the engine after the run (its [results] replaced) and the
    report.  The timestamp of the report is left out. *)
Definition validate (self : ClinicalDataValidator) (df : DataFrame)
    (id_column : string) : ClinicalDataValidator * DataQualityReport :=
  let total_records := len df in
  let results :=
    foldl (fun results rule =>
             (results ++ [run_rule rule df id_column total_records])%list)
          [] (rules self) in
  let status := overall_status results in
  ({| domain := domain self; rules := rules self; results := results |},
   {| report_domain := domain self;
      source_path := "";
      total_records := total_records;
      status := status;
      report_results := results |}).

End Validators.

(** ** The lineage index and its queries
    ([src/data_quality/lineage_tracker.py]) *)

Module Lineage.

(** A lineage record is a dictionary, as [LineageEvent.to_dict] writes
    it; the queries read three of its keys, each with a default. *)
Record Asset := {
  asset_id : string;
  location : option string
}.

Record Event := {
  event_id      : string;
  input_assets  : option (list Asset);
  output_assets : option (list Asset)
}.

#[global] Instance Asset_eq_dec : EqDecision Asset.
Proof. solve_decision. Defined.

#[global] Instance Event_eq_dec : EqDecision Event.
Proof. solve_decision. Defined.

(** [asset.get("location", "")] *)
Definition get_location (a : Asset) : string := default "" (location a).

(** [record.get("input_assets", [])], [record.get("output_assets", [])] *)
Definition get_inputs (record : Event) : list Asset := default [] (input_assets record).
Definition get_outputs (record : Event) : list Asset := default [] (output_assets record).

Record LineageQuery := {
  records   : list Event;
  by_output : gmap string (list Event);
  by_input  : gmap string (list Event)
}.

(** [if loc not in index: index[loc] = []] then [index[loc].append(record)] *)
Definition index_append (index : gmap string (list Event)) (record : Event)
    (asset : Asset) : gmap string (list Event) :=
  let loc := get_location asset in
  let index :=
    match index !! loc with
    | None => <[loc := []]> index
    | Some _ => index
    end in
  alter (fun l => (l ++ [record])%list) loc index.

(** The body of the loop of [_build_index]: one record, first its input
    assets into [by_input], then its output assets into [by_output]. *)
Definition index_record
    (indexes : gmap string (list Event) * gmap string (list Event))
    (record : Event) : gmap string (list Event) * gmap string (list Event) :=
  let '(by_input, by_output) := indexes in
  let by_input :=
    foldl (fun index a => index_append index record a)
          by_input (get_inputs record) in
  let by_output :=
    foldl (fun index a => index_append index record a)
          by_output (get_outputs record) in
  (by_input, by_output).

(** [_build_index]: both indexes, from empty ones, over the records in
    their order. *)
Definition _build_index (lineage_records : list Event)
  : gmap string (list Event) * gmap string (list Event) :=
  foldl index_record (∅, ∅) lineage_records.

(** [__init__], which calls [_build_index]. *)
Definition new_query (lineage_records : list Event) : LineageQuery :=
  let '(by_input, by_output) := _build_index lineage_records in
  {| records := lineage_records; by_output := by_output; by_input := by_input |}.

Section Traversal.
(** The two queries run the same loop; [index] is [by_output] and
    [next] the input assets for the upstream query, [by_input] and the
    output assets for the downstream one. *)
Variable index : gmap string (list Event).
Variable next : Event -> list Asset.
Variable depth : Z.

(** [index.get(loc, [])] *)
Definition index_get (loc : string) : list Event := default [] (index !! loc).

(** The two nested [for] loops that extend the queue. *)
Definition enqueue (visited : gset string) (current_depth : Z)
    (events : list Event) (queue : list (string * Z)) : list (string * Z) :=
  foldl (fun queue event =>
           foldl (fun queue asset =>
                    let loc := get_location asset in
                    if bool_decide (loc ∈ visited) then queue
                    else (queue ++ [(loc, (current_depth + 1)%Z)])%list)
                 queue (next event))
        queue events.

(** The [while queue:] loop; every iteration costs one unit of [fuel],
    and [None] means the fuel ran out first. *)
Fixpoint loop (fuel : nat) (result : list Event) (visited : gset string)
    (queue : list (string * Z)) : option (list Event * gset string) :=
  match queue with
  | [] => Some (result, visited)
  | (current_loc, current_depth) :: queue =>
      match fuel with
      | O => None
      | S fuel =>
          if bool_decide (current_loc ∈ visited) || (depth <? current_depth)%Z
          then loop fuel result visited queue
          else
            let visited := {[current_loc]} ∪ visited in
            let events := index_get current_loc in
            let result := (result ++ events)%list in
            loop fuel result visited
                 (enqueue visited current_depth events queue)
      end
  end.

Definition traverse (fuel : nat) (asset_location : string)
  : option (list Event * gset string) :=
  loop fuel [] ∅ [(asset_location, 0%Z)].
End Traversal.

(** [get_upstream] and [get_downstream], with the set of visited
    locations at the end of the loop next to the returned list. *)
Definition upstream_run (fuel : nat) (self : LineageQuery)
    (asset_location : string) (depth : Z) :=
  traverse (by_output self) get_inputs depth fuel asset_location.

Definition downstream_run (fuel : nat) (self : LineageQuery)
    (asset_location : string) (depth : Z) :=
  traverse (by_input self) get_outputs depth fuel asset_location.

Definition get_upstream (fuel : nat) (self : LineageQuery)
    (asset_location : string) (depth : Z) : option (list Event) :=
  fst <$> upstream_run fuel self asset_location depth.

Definition get_downstream (fuel : nat) (self : LineageQuery)
    (asset_location : string) (depth : Z) : option (list Event) :=
  fst <$> downstream_run fuel self asset_location depth.

End Lineage.

(** ** The vocabulary of the stated properties *)

Module ContractSpec.
Import Py Pandas DataContracts.

(** The ratio test of the decision, [failed / total > 0.05], on exact
    rationals.  A zero [total] makes the quotient zero. *)
Definition exceeds_threshold (failed total : nat) : bool :=
  negb (Qle_bool (inject_Z (Z.of_nat failed) / inject_Z (Z.of_nat total))
                 (5 # 100)).

Definition any_change (changes : list SchemaChange) : bool :=
  match changes with [] => false | _ :: _ => true end.

(** The decision policy in the order in which the design document lists
    its five cases: action and validity. *)
Definition decision_policy (has_breaking : bool) (failed total : nat)
    (changed : bool) : string * bool :=
  if has_breaking then ("quarantine", false)
  else if exceeds_threshold failed total then ("quarantine", false)
  else if bool_decide (0 < failed)%nat then ("alert", true)
  else if changed then ("alert", true)
  else ("accept", true).



(** The number of rows of what [df[col]] is. *)
Definition item_length (col_data : item) : nat :=
  match col_data with
  | Series _ data => length data
  | Frame _ rows => length rows
  end.

(** Every value check of every column counted nothing. *)
Definition all_clean (m : gmap string ColumnResult) : Prop :=
  map_Forall (fun _ v => failed_count v = 0%nat) m.

(** The same contract with another primary key. *)
Definition with_primary_key (c : DataContract) (pk : list string) : DataContract :=
  {| contract_name := contract_name c;
     version := version c;
     domain := domain c;
     contract_description := contract_description c;
     owner := owner c;
     contract_columns := contract_columns c;
     compatibility_mode := compatibility_mode c;
     primary_key := pk;
     foreign_keys := foreign_keys c;
     created_at := created_at c;
     updated_at := updated_at c |}.

(** The invariant that the design document states for a contract. *)
Definition primary_key_declared (c : DataContract) : Prop :=
  Forall (fun k => k ∈ map name (contract_columns c)) (primary_key c).

End ContractSpec.

(** ** Sample contracts and datasets *)

Module ContractSamples.
Import Py Pandas DataContracts.

(** [ColumnContract(name=..., dtype=...)] with the defaults of the
    dataclass. *)
Definition column_contract (name dtype : string) (nullable : bool)
    (allowed : list string) (bounds : option (Q * Q)) : ColumnContract :=
  {| name := name; dtype := dtype; nullable := nullable; unique := false;
     allowed_values := map Str allowed;
     min_value := fst <$> bounds; max_value := snd <$> bounds;
     pattern := None; col_description := "" |}.

(** Three columns of the demographics contract of [create_dm_contract]. *)
Definition dm_columns : list ColumnContract :=
  [ column_contract "AGE" "int64" false [] (Some (0, 120)%Q);
    column_contract "SEX" "string" false ["M"; "F"; "U"; "UNDIFFERENTIATED"] None;
    column_contract "RACE" "string" true [] None ].

(** A contract with these columns; its primary key, as in the source, is
    USUBJID, which is not among the three. *)
Definition dm_contract : DataContract :=
  {| contract_name := "clinical_trial_dm";
     version := "1.0.0";
     domain := "DM";
     contract_description := "Demographics domain - one record per subject";
     owner := "data-engineering";
     contract_columns := dm_columns;
     compatibility_mode := BACKWARD;
     primary_key := ["USUBJID"];
     foreign_keys := [];
     created_at := "";
     updated_at := "" |}.

Definition dm_labels : list (string * string) :=
  [("AGE", "int64"); ("SEX", "object"); ("RACE", "object")].

(** [good] rows that satisfy the contract followed by [bad] rows whose
    SEX is outside the controlled terminology. *)
Definition dm_dataset (good bad : nat) : DataFrame :=
  {| df_columns := dm_labels;
     df_rows := repeat [Num 40; Str "F"; PyNone] good
                ++ repeat [Num 40; Str "X"; PyNone] bad |}.





(** No row, and the ages as dates. *)
Definition dm_age_as_date : DataFrame :=
  {| df_columns := [("AGE", "datetime64[ns]"); ("SEX", "object");
                    ("RACE", "object")];
     df_rows := [] |}.

End ContractSamples.

Module ValidatorSpec.
Import Py Pandas Validators.

(** The rules of an engine have pairwise different names. *)
Definition names_unique (v : ClinicalDataValidator) : Prop :=
  NoDup (map name (rules v)).

(** The report of a run. *)
Definition report_of (v : ClinicalDataValidator) (df : DataFrame)
    (id_column : string) : DataQualityReport :=
  snd (validate v df id_column).

End ValidatorSpec.

Module ValidatorSamples.
Import Py Pandas Validators.

(** [df[mask]]: the rows at which the mask is true. *)
Fixpoint select_rows (rows : list (list cell)) (mask : list bool)
  : list (list cell) :=
  match rows, mask with
  | row :: rows', b :: mask' =>
      if b then row :: select_rows rows' mask' else select_rows rows' mask'
  | _, _ => []
  end.

(** A check of the shape of [check_usubjid_not_null]:
    [null_records = df[df[col].isna()]], a [KeyError] when the dataset
    has no such column. *)
Definition check_not_null (col : string) (df : DataFrame)
  : outcome (bool * DataFrame) :=
  if has_column df col then
    let null_records :=
      {| df_columns := df_columns df;
         df_rows := select_rows (df_rows df) (map isna (column df col)) |} in
    Ok (empty null_records, null_records)
  else Raise (Exn "KeyError" ("'" ++ col ++ "'")).

(** An engine with rule DM_002 of [create_dm_validator]. *)
Definition dm_validator : ClinicalDataValidator :=
  add_rule (new_validator "DM") "DM_002" "USUBJID cannot be null"
           (check_not_null "USUBJID") ERROR.

(** The same engine after a second registration under the same name. *)
Definition dm_validator_twice : ClinicalDataValidator :=
  add_rule dm_validator "DM_002" "ARM should be recorded"
           (check_not_null "ARM") WARNING.

(** An engine whose only rule is informational. *)
Definition info_validator : ClinicalDataValidator :=
  add_rule (new_validator "DM") "DM_900" "ARM should be recorded"
           (check_not_null "ARM") INFO.

(** Two subjects, the second without arm and without identifier. *)
Definition dm_subjects : DataFrame :=
  {| df_columns := [("USUBJID", "object"); ("ARM", "object")];
     df_rows := [[Str "SUBJ001"; Str "PLACEBO"]; [PyNone; PyNone]] |}.


End ValidatorSamples.

Module LineageSpec.
Import Lineage.

(** The locations of the input and of the output assets of a record, in
    their order, repeated when two assets share one. *)
Definition input_locations (e : Event) : list string :=
  map get_location (get_inputs e).

Definition output_locations (e : Event) : list string :=
  map get_location (get_outputs e).

(** The number of entries of a list that are in a set. *)
Definition count_in (visited : gset string) (l : list string) : nat :=
  length (filter (fun x => x ∈ visited) l).

(** What the index holds under a location: each record once per asset,
    on the indexed side, at that location, in the order of the batch. *)
Definition indexed (side : Event -> list Asset) (lineage_records : list Event)
    (loc : string) : list Event :=
  flat_map (fun record =>
              flat_map (fun a =>
                          if decide (get_location a = loc) then [record]
                          else [])
                       (side record))
           lineage_records.

(** The returned list and the final visited set come from expanding
    each visited location exactly once: some duplicate-free sequence of
    locations makes up the set, and the list is what the index holds
    for them, in that order. *)
Definition expanded_once (held : string -> list Event) (res : list Event)
    (visited : gset string) : Prop :=
  exists trace,
    NoDup trace
    /\ visited = list_to_set trace
    /\ res = flat_map held trace.

End LineageSpec.

Module LineageSamples.
Import Lineage.

Definition asset_at (loc : string) : Asset :=
  {| asset_id := loc; location := Some loc |}.

Definition event (id : string) (inputs outputs : list string) : Event :=
  {| event_id := id;
     input_assets := Some (map asset_at inputs);
     output_assets := Some (map asset_at outputs) |}.

(** The cycle: E1 reads A and writes B, E2 reads B and writes A. *)
Definition E1 : Event := event "E1" ["A"] ["B"].
Definition E2 : Event := event "E2" ["B"] ["A"].

(** A split: S1 reads Z and writes X and Y; S2 reads X and writes Y. *)
Definition S1 : Event := event "S1" ["Z"] ["X"; "Y"].
Definition S2 : Event := event "S2" ["X"] ["Y"].

(** One event that registers the same output location twice. *)
Definition D1 : Event := event "D1" ["Z"] ["X"; "X"].

End LineageSamples.

(** ** The vocabulary of schema drift *)

Module DriftSpec.
Import Py Pandas DataContracts.

(** The column names that the contract declares, and the labels of the
    dataset, as sets. *)
Definition declared (contract : DataContract) : gset string :=
  list_to_set (map name (contract_columns contract)).

Definition incoming (df : DataFrame) : gset string :=
  list_to_set (columns df).

(** The dtype of the first column with a label. *)
Definition label_dtype (df : DataFrame) (col : string) : string :=
  match position col (columns df) with
  | Some i => nth i (map snd (df_columns df)) ""
  | None => ""
  end.

(** The declared dtype of a column and the normalised dtype of the
    dataset's column of that name are not compatible. *)
Definition incompatible (contract : DataContract) (df : DataFrame)
    (col : string) : Prop :=
  _types_compatible (declared_dtype (new_validator contract) col)
                    (_normalize_dtype (label_dtype df col)) = false.

(** The three kinds of change that [detect_schema_changes] builds. *)
Definition added_change (contract : DataContract) (df : DataFrame)
    (col : string) : SchemaChange :=
  {| change_type := COLUMN_ADDED;
     column_name := col;
     old_value := None;
     new_value := Some (label_dtype df col);
     is_breaking := bool_decide (compatibility_mode contract = FORWARD);
     description := "New column '" ++ col ++ "' detected in incoming data" |}.

Definition removed_change (contract : DataContract) (col : string)
  : SchemaChange :=
  {| change_type := COLUMN_REMOVED;
     column_name := col;
     old_value := Some (declared_dtype (new_validator contract) col);
     new_value := None;
     is_breaking :=
       bool_decide (compatibility_mode contract ∈ [BACKWARD; FULL]);
     description := "Required column '" ++ col
                    ++ "' missing from incoming data" |}.

Definition type_change (contract : DataContract) (df : DataFrame)
    (col : string) : SchemaChange :=
  let expected_dtype := declared_dtype (new_validator contract) col in
  let actual_dtype := _normalize_dtype (label_dtype df col) in
  {| change_type := TYPE_CHANGED;
     column_name := col;
     old_value := Some expected_dtype;
     new_value := Some actual_dtype;
     is_breaking := true;
     description := "Column '" ++ col ++ "' type changed from "
                    ++ expected_dtype ++ " to " ++ actual_dtype |}.

(** The changes of a dataset whose labels are distinct, in the order in
    which [detect_schema_changes] builds them. *)
Definition changes_of (contract : DataContract) (df : DataFrame)
  : list SchemaChange :=
  (map (added_change contract df)
       (elements (incoming df ∖ declared contract))
   ++ map (removed_change contract)
          (elements (declared contract ∖ incoming df))
   ++ omap (fun col =>
              if negb (_types_compatible
                         (declared_dtype (new_validator contract) col)
                         (_normalize_dtype (label_dtype df col)))
              then Some (type_change contract df col)
              else None)
           (elements (incoming df ∩ declared contract)))%list.

(** The invariants of the checks of one column over [n] rows: the
    column's count is the sum of the counts of its checks, a check has
    passed exactly when it counted nothing, no check counts more than the
    rows, and the checks come in the fixed order. *)
Definition check_order : list string :=
  ["not_null"; "unique"; "allowed_values"; "min_value"; "max_value"].

Definition column_result_ok (n : nat) (label : string) (r : ColumnResult)
  : Prop :=
  column_label r = label
  /\ failed_count r = sum_list (map check_failed_count (checks r))
  /\ Forall (fun k => passed k = bool_decide (check_failed_count k = 0%nat)
                     /\ (check_failed_count k <= n)%nat) (checks r)
  /\ map check (checks r) `sublist_of` check_order.

End DriftSpec.

Module DriftSamples.
Import Py Pandas DataContracts ContractSamples.

(** A contract that declares AGE with the dtype of a narrower integer. *)
Definition narrow_contract : DataContract :=
  {| contract_name := "clinical_trial_dm";
     version := "1.0.0";
     domain := "DM";
     contract_description := "";
     owner := "data-engineering";
     contract_columns := [column_contract "AGE" "int32" false [] None];
     compatibility_mode := NONE;
     primary_key := [];
     foreign_keys := [];
     created_at := "";
     updated_at := "" |}.

(** A dataset whose AGE column has exactly that dtype. *)
Definition narrow_dataset : DataFrame :=
  {| df_columns := [("AGE", "int32")];
     df_rows := [[Num 40]; [Num 41]] |}.

(** A contract of one column, the subject identifier, which must be
    there and must not repeat. *)
Definition id_contract : DataContract :=
  {| contract_name := "clinical_trial_dm";
     version := "1.0.0";
     domain := "DM";
     contract_description := "";
     owner := "data-engineering";
     contract_columns :=
       [ {| name := "USUBJID"; dtype := "string";
            nullable := false; unique := true;
            allowed_values := []; min_value := None; max_value := None;
            pattern := None; col_description := "" |} ];
     compatibility_mode := BACKWARD;
     primary_key := ["USUBJID"];
     foreign_keys := [];
     created_at := "";
     updated_at := "" |}.

(** Two records, both without identifier. *)
Definition ids_missing : DataFrame :=
  {| df_columns := [("USUBJID", "object")];
     df_rows := [[PyNone]; [PyNone]] |}.

End DriftSamples.

(** ** Contract documents ([to_dict], [save], [load]) *)

Module ContractJson.
Import Py Pandas DataContracts ContractSpec.

(** [CompatibilityMode.value] *)
Definition CompatibilityMode_value (mode : CompatibilityMode) : string :=
  match mode with
  | BACKWARD => "backward"
  | FORWARD => "forward"
  | FULL => "full"
  | NONE => "none"
  end.

(** A column object of a contract document: for each key of the dataclass
    whether the object has it, and its value; the optional numbers and the
    pattern may be [null].  [other_keys] are the keys that the dataclass
    does not know. *)
Record ColumnObject := {
  key_name           : option string;
  key_dtype          : option string;
  key_nullable       : option bool;
  key_unique         : option bool;
  key_description    : option string;
  key_allowed_values : option (list cell);
  key_min_value      : option (option Q);
  key_max_value      : option (option Q);
  key_pattern        : option (option string);
  other_keys         : list string
}.

(** [ColumnContract.to_dict]: five keys always, the other four only when
    the field is truthy ([allowed_values], [pattern]) or not [None]
    ([min_value], [max_value]). *)
Definition ColumnContract_to_dict (self : ColumnContract) : ColumnObject :=
  {| key_name := Some (name self);
     key_dtype := Some (dtype self);
     key_nullable := Some (nullable self);
     key_unique := Some (unique self);
     key_description := Some (col_description self);
     key_allowed_values :=
       match allowed_values self with
       | [] => None
       | _ :: _ => Some (allowed_values self)
       end;
     key_min_value :=
       match min_value self with
       | Some q => Some (Some q)
       | None => None
       end;
     key_max_value :=
       match max_value self with
       | Some q => Some (Some q)
       | None => None
       end;
     key_pattern :=
       match pattern self with
       | None | Some "" => None
       | Some p => Some (Some p)
       end;
     other_keys := [] |}.

(** The call of [ColumnContract] with the keys of [col] as keyword
    arguments: a [TypeError] for a key that the dataclass
    does not have or for a missing [name] or [dtype]; the default of the
    dataclass for every other missing key. *)
Definition ColumnContract_of_kwargs (col : ColumnObject) : outcome ColumnContract :=
  match other_keys col with
  | k :: _ =>
      Raise (Exn "TypeError" ("got an unexpected keyword argument '" ++ k ++ "'"))
  | [] =>
      match key_name col, key_dtype col with
      | Some n, Some d =>
          Ok {| name := n;
                dtype := d;
                nullable := default true (key_nullable col);
                unique := default false (key_unique col);
                allowed_values := default [] (key_allowed_values col);
                min_value := default None (key_min_value col);
                max_value := default None (key_max_value col);
                pattern := default None (key_pattern col);
                col_description := default "" (key_description col) |}
      | None, _ =>
          Raise (Exn "TypeError" "missing required positional argument: 'name'")
      | Some _, None =>
          Raise (Exn "TypeError" "missing required positional argument: 'dtype'")
      end
  end.

(** The document that [DataContract.to_dict] builds and [save] writes. *)
Record JsonDocument := {
  json_name               : string;
  json_version            : string;
  json_domain             : string;
  json_description        : string;
  json_owner              : string;
  json_compatibility_mode : string;
  json_primary_key        : list string;
  json_foreign_keys       : list (string * string);
  json_columns            : list ColumnObject;
  json_created_at         : string;
  json_updated_at         : string
}.

(** [DataContract.to_dict] *)
Definition to_dict (self : DataContract) : JsonDocument :=
  {| json_name := contract_name self;
     json_version := version self;
     json_domain := domain self;
     json_description := contract_description self;
     json_owner := owner self;
     json_compatibility_mode := CompatibilityMode_value (compatibility_mode self);
     json_primary_key := primary_key self;
     json_foreign_keys := foreign_keys self;
     json_columns := map ColumnContract_to_dict (contract_columns self);
     json_created_at := created_at self;
     json_updated_at := updated_at self |}.

(** A contract document as [json.load] may return it: for each key of the
    dataclass whether the document has it, and the keys that the dataclass
    does not know. *)
Record Document := {
  doc_name               : option string;
  doc_version            : option string;
  doc_domain             : option string;
  doc_description        : option string;
  doc_owner              : option string;
  doc_columns            : option (list ColumnObject);
  doc_compatibility_mode : option string;
  doc_primary_key        : option (list string);
  doc_foreign_keys       : option (list (string * string));
  doc_created_at         : option string;
  doc_updated_at         : option string;
  doc_other_keys         : list string
}.

(** [data[key]] and [data.pop(key)]: a [KeyError] for a missing key. *)
Definition required {A} (key : string) (value : option A) : outcome A :=
  match value with
  | Some v => Ok v
  | None => Raise (Exn "KeyError" ("'" ++ key ++ "'"))
  end.

(** The call of [DataContract] with the keys of the document as keyword
    arguments: a [TypeError] for a key that the dataclass does not have or
    for a missing field without default; [created] and [updated] are what
    the clock gives for the two timestamps when the document has none. *)
Definition DataContract_of_kwargs (created updated : string) (data : Document)
    (columns : list ColumnContract) (mode : CompatibilityMode)
  : outcome DataContract :=
  match doc_other_keys data with
  | k :: _ =>
      Raise (Exn "TypeError" ("got an unexpected keyword argument '" ++ k ++ "'"))
  | [] =>
      match doc_name data, doc_version data, doc_domain data,
            doc_description data, doc_owner data with
      | Some n, Some v, Some d, Some descr, Some o =>
          Ok {| contract_name := n;
                version := v;
                domain := d;
                contract_description := descr;
                owner := o;
                contract_columns := columns;
                compatibility_mode := mode;
                primary_key := default [] (doc_primary_key data);
                foreign_keys := default [] (doc_foreign_keys data);
                created_at := default created (doc_created_at data);
                updated_at := default updated (doc_updated_at data) |}
      | _, _, _, _, _ =>
          Raise (Exn "TypeError" "missing required positional arguments")
      end
  end.

(** [DataContract.load], after [json.load]: the columns are popped and
    built, the compatibility mode is read and converted, and the dataclass
    is called with what the document holds. *)
Definition load (created updated : string) (data : Document)
  : outcome DataContract :=
  cols ← required "columns" (doc_columns data);
  columns ← mapM ColumnContract_of_kwargs cols;
  value ← required "compatibility_mode" (doc_compatibility_mode data);
  mode ← CompatibilityMode_of_value value;
  DataContract_of_kwargs created updated data columns mode.

(** A document that [to_dict] built, as [json.load] returns it. *)
Definition document_of (data : JsonDocument) : Document :=
  {| doc_name := Some (json_name data);
     doc_version := Some (json_version data);
     doc_domain := Some (json_domain data);
     doc_description := Some (json_description data);
     doc_owner := Some (json_owner data);
     doc_columns := Some (json_columns data);
     doc_compatibility_mode := Some (json_compatibility_mode data);
     doc_primary_key := Some (json_primary_key data);
     doc_foreign_keys := Some (json_foreign_keys data);
     doc_created_at := Some (json_created_at data);
     doc_updated_at := Some (json_updated_at data);
     doc_other_keys := [] |}.

(** [DataContract.load] on a document that has every key of [to_dict] and
    no other: no default is taken, and the clock is not read. *)
Definition load_json (data : JsonDocument) : outcome DataContract :=
  columns ← mapM ColumnContract_of_kwargs (json_columns data);
  mode ← CompatibilityMode_of_value (json_compatibility_mode data);
  Ok {| contract_name := json_name data;
        version := json_version data;
        domain := json_domain data;
        contract_description := json_description data;
        owner := json_owner data;
        contract_columns := columns;
        compatibility_mode := mode;
        primary_key := json_primary_key data;
        foreign_keys := json_foreign_keys data;
        created_at := json_created_at data;
        updated_at := json_updated_at data |}.

(** The same document with another primary key, or with none. *)
Definition with_document_primary_key (data : Document)
    (pk : option (list string)) : Document :=
  {| doc_name := doc_name data;
     doc_version := doc_version data;
     doc_domain := doc_domain data;
     doc_description := doc_description data;
     doc_owner := doc_owner data;
     doc_columns := doc_columns data;
     doc_compatibility_mode := doc_compatibility_mode data;
     doc_primary_key := pk;
     doc_foreign_keys := doc_foreign_keys data;
     doc_created_at := doc_created_at data;
     doc_updated_at := doc_updated_at data;
     doc_other_keys := doc_other_keys data |}.

(** The column with an empty pattern replaced by no pattern. *)
Definition without_empty_pattern (c : ColumnContract) : ColumnContract :=
  {| name := name c;
     dtype := dtype c;
     nullable := nullable c;
     unique := unique c;
     allowed_values := allowed_values c;
     min_value := min_value c;
     max_value := max_value c;
     pattern := match pattern c with
                | Some "" => None
                | p => p
                end;
     col_description := col_description c |}.

(** The same contract with other columns. *)
Definition with_columns (c : DataContract) (cols : list ColumnContract)
  : DataContract :=
  {| contract_name := contract_name c;
     version := version c;
     domain := domain c;
     contract_description := contract_description c;
     owner := owner c;
     contract_columns := cols;
     compatibility_mode := compatibility_mode c;
     primary_key := primary_key c;
     foreign_keys := foreign_keys c;
     created_at := created_at c;
     updated_at := updated_at c |}.

End ContractJson.

(** ** The contracts that the module ships *)

Module PrebuiltContracts.
Import Py Pandas DataContracts.

(** [ColumnContract(...)], the fields in the order of the dataclass:
    name, dtype, nullable, unique, allowed_values, min_value, max_value,
    pattern, description. *)
Abbreviation column := Build_ColumnContract.

(** [create_dm_contract]; the two arguments are the clock at the two calls of
    [datetime.now] that fill [created_at] and [updated_at]. *)
Definition create_dm_contract (created updated : string) : DataContract :=
  {| contract_name := "clinical_trial_dm";
     version := "1.0.0";
     domain := "DM";
     contract_description := "Demographics domain - one record per subject";
     owner := "data-engineering";
     contract_columns :=
     [ column "STUDYID" "string" false false
         [] None None None
         "Study Identifier";
       column "DOMAIN" "string" false false
         [Str "DM"] None None None
         "Domain Abbreviation";
       column "USUBJID" "string" false true
         [] None None None
         "Unique Subject Identifier";
       column "SUBJID" "string" false false
         [] None None None
         "Subject Identifier for the Study";
       column "SITEID" "string" false false
         [] None None None
         "Study Site Identifier";
       column "AGE" "int64" false false
         [] (Some 0%Q) (Some 120%Q) None
         "Age in Years";
       column "AGEU" "string" false false
         [Str "YEARS"] None None None
         "Age Units";
       column "SEX" "string" false false
         [Str "M"; Str "F"; Str "U"; Str "UNDIFFERENTIATED"] None None None
         "Sex (CDISC CT)";
       column "RACE" "string" true false
         [] None None None
         "Race";
       column "ETHNIC" "string" true false
         [] None None None
         "Ethnicity";
       column "ARM" "string" true false
         [] None None None
         "Treatment Arm";
       column "ARMCD" "string" true false
         [] None None None
         "Treatment Arm Code";
       column "COUNTRY" "string" true false
         [] None None None
         "Country";
       column "RFSTDTC" "string" true false
         [] None None (Some "^\d{4}-\d{2}-\d{2}")
         "Subject Reference Start Date (ISO 8601)";
       column "RFENDTC" "string" true false
         [] None None None
         "Subject Reference End Date (ISO 8601)" ];
     compatibility_mode := BACKWARD;
     primary_key := ["USUBJID"];
     foreign_keys := [];
     created_at := created;
     updated_at := updated |}.

(** [create_ae_contract]; the two arguments are the clock at the two calls of
    [datetime.now] that fill [created_at] and [updated_at]. *)
Definition create_ae_contract (created updated : string) : DataContract :=
  {| contract_name := "clinical_trial_ae";
     version := "1.0.0";
     domain := "AE";
     contract_description := "Adverse Events domain - one record per adverse event per subject";
     owner := "data-engineering";
     contract_columns :=
     [ column "STUDYID" "string" false false
         [] None None None
         "Study Identifier";
       column "DOMAIN" "string" false false
         [Str "AE"] None None None
         "Domain Abbreviation";
       column "USUBJID" "string" false false
         [] None None None
         "Unique Subject Identifier";
       column "AESEQ" "int64" false false
         [] (Some 1%Q) None None
         "Sequence Number";
       column "AETERM" "string" false false
         [] None None None
         "Reported Term for the Adverse Event";
       column "AEDECOD" "string" true false
         [] None None None
         "Dictionary-Derived Term (MedDRA PT)";
       column "AEBODSYS" "string" true false
         [] None None None
         "Body System or Organ Class (MedDRA SOC)";
       column "AESEV" "string" false false
         [Str "MILD"; Str "MODERATE"; Str "SEVERE"] None None None
         "Severity/Intensity (CDISC CT)";
       column "AESER" "string" false false
         [Str "Y"; Str "N"] None None None
         "Serious Event (Y/N)";
       column "AEREL" "string" true false
         [] None None None
         "Causality/Relationship to Treatment";
       column "AEOUT" "string" true false
         [] None None None
         "Outcome of Adverse Event";
       column "AESTDTC" "string" true false
         [] None None None
         "Start Date/Time (ISO 8601)";
       column "AEENDTC" "string" true false
         [] None None None
         "End Date/Time (ISO 8601)" ];
     compatibility_mode := BACKWARD;
     primary_key := ["USUBJID"; "AESEQ"];
     foreign_keys := [("USUBJID", "DM.USUBJID")];
     created_at := created;
     updated_at := updated |}.

(** Every column that a foreign key starts from is declared. *)
Definition foreign_keys_declared (c : DataContract) : Prop :=
  Forall (fun fk => fk.1 ∈ map name (contract_columns c)) (foreign_keys c).

(** The declared dtypes are in the form that [_normalize_dtype] returns. *)
Definition dtypes_normalised (c : DataContract) : Prop :=
  Forall (fun col => _normalize_dtype (dtype col) = dtype col)
         (contract_columns c).

End PrebuiltContracts.


(** ** The shipped validators and the runner *)

Module Runner.
Import Py Pandas Validators.

(** The check functions that the four factories define and register.  They
    are pandas code (string accessors, date parsing, concatenation) and stay
    abstract: each returns a verdict with the failing rows, or raises. *)
Record Checks := {
  dm_check_usubjid_unique : DataFrame -> outcome (bool * DataFrame);
  dm_check_usubjid_not_null : DataFrame -> outcome (bool * DataFrame);
  dm_check_age_range : DataFrame -> outcome (bool * DataFrame);
  dm_check_sex_values : DataFrame -> outcome (bool * DataFrame);
  dm_check_arm_populated : DataFrame -> outcome (bool * DataFrame);
  dm_check_rfstdtc_format : DataFrame -> outcome (bool * DataFrame);
  ae_check_usubjid_not_null : DataFrame -> outcome (bool * DataFrame);
  ae_check_aeterm_not_null : DataFrame -> outcome (bool * DataFrame);
  ae_check_severity_values : DataFrame -> outcome (bool * DataFrame);
  ae_check_serious_flag : DataFrame -> outcome (bool * DataFrame);
  ae_check_date_logic : DataFrame -> outcome (bool * DataFrame);
  vs_check_usubjid_not_null : DataFrame -> outcome (bool * DataFrame);
  vs_check_vstestcd_not_null : DataFrame -> outcome (bool * DataFrame);
  vs_check_positive_values : DataFrame -> outcome (bool * DataFrame);
  vs_check_vital_ranges : DataFrame -> outcome (bool * DataFrame);
  lb_check_usubjid_not_null : DataFrame -> outcome (bool * DataFrame);
  lb_check_lbtestcd_not_null : DataFrame -> outcome (bool * DataFrame);
  lb_check_nrind_values : DataFrame -> outcome (bool * DataFrame);
  lb_check_range_logic : DataFrame -> outcome (bool * DataFrame)
}.

(** [create_dm_validator] *)
Definition create_dm_validator (checks : Checks) : ClinicalDataValidator :=
  let validator := new_validator "DM" in
  let validator :=
    add_rule validator "DM_001"
      "USUBJID must be unique - each subject appears only once"
      (dm_check_usubjid_unique checks) ERROR in
  let validator :=
    add_rule validator "DM_002"
      "USUBJID cannot be null"
      (dm_check_usubjid_not_null checks) ERROR in
  let validator :=
    add_rule validator "DM_003"
      "AGE must be between 0 and 120 years"
      (dm_check_age_range checks) ERROR in
  let validator :=
    add_rule validator "DM_004"
      "SEX must be M, F, U, or UNDIFFERENTIATED (CDISC CT)"
      (dm_check_sex_values checks) ERROR in
  let validator :=
    add_rule validator "DM_005"
      "ARM (treatment arm) should be populated"
      (dm_check_arm_populated checks) WARNING in
  let validator :=
    add_rule validator "DM_006"
      "RFSTDTC must be valid ISO 8601 date format (YYYY-MM-DD)"
      (dm_check_rfstdtc_format checks) ERROR in
  validator.

(** [create_ae_validator] *)
Definition create_ae_validator (checks : Checks) : ClinicalDataValidator :=
  let validator := new_validator "AE" in
  let validator :=
    add_rule validator "AE_001"
      "USUBJID cannot be null"
      (ae_check_usubjid_not_null checks) ERROR in
  let validator :=
    add_rule validator "AE_002"
      "AETERM (adverse event term) cannot be null"
      (ae_check_aeterm_not_null checks) ERROR in
  let validator :=
    add_rule validator "AE_003"
      "AESEV must be MILD, MODERATE, or SEVERE"
      (ae_check_severity_values checks) ERROR in
  let validator :=
    add_rule validator "AE_004"
      "AESER (serious flag) must be Y or N"
      (ae_check_serious_flag checks) ERROR in
  let validator :=
    add_rule validator "AE_005"
      "AEENDTC (end date) must be >= AESTDTC (start date)"
      (ae_check_date_logic checks) ERROR in
  validator.

(** [create_vs_validator] *)
Definition create_vs_validator (checks : Checks) : ClinicalDataValidator :=
  let validator := new_validator "VS" in
  let validator :=
    add_rule validator "VS_001"
      "USUBJID cannot be null"
      (vs_check_usubjid_not_null checks) ERROR in
  let validator :=
    add_rule validator "VS_002"
      "VSTESTCD (test code) cannot be null"
      (vs_check_vstestcd_not_null checks) ERROR in
  let validator :=
    add_rule validator "VS_003"
      "VSSTRESN (numeric result) should be positive"
      (vs_check_positive_values checks) WARNING in
  let validator :=
    add_rule validator "VS_004"
      "Vital sign values must be within physiological range"
      (vs_check_vital_ranges checks) WARNING in
  validator.

(** [create_lb_validator] *)
Definition create_lb_validator (checks : Checks) : ClinicalDataValidator :=
  let validator := new_validator "LB" in
  let validator :=
    add_rule validator "LB_001"
      "USUBJID cannot be null"
      (lb_check_usubjid_not_null checks) ERROR in
  let validator :=
    add_rule validator "LB_002"
      "LBTESTCD (test code) cannot be null"
      (lb_check_lbtestcd_not_null checks) ERROR in
  let validator :=
    add_rule validator "LB_003"
      "LBNRIND must be LOW, NORMAL, HIGH, or ABNORMAL"
      (lb_check_nrind_values checks) WARNING in
  let validator :=
    add_rule validator "LB_004"
      "LBORNRLO must be less than LBORNRHI"
      (lb_check_range_logic checks) ERROR in
  validator.

(** [validate_clinical_data]: the factory of the domain, its validator run
    on the dataset with the default id column, the source path put into
    the report. *)
Definition validators (checks : Checks) : list (string * ClinicalDataValidator) :=
  [ ("DM", create_dm_validator checks);
    ("AE", create_ae_validator checks);
    ("VS", create_vs_validator checks);
    ("LB", create_lb_validator checks) ].

Fixpoint get_item {A} (key : string) (items : list (string * A)) : option A :=
  match items with
  | [] => None
  | (k, v) :: items' => if String.eqb key k then Some v else get_item key items'
  end.

Definition validate_clinical_data (checks : Checks) (df : DataFrame)
    (domain source_path : string) : outcome DataQualityReport :=
  match get_item domain (validators checks) with
  | None =>
      Raise (Exn "ValueError"
               ("Unknown domain: " ++ domain
                ++ ". Supported: ['DM', 'AE', 'VS', 'LB']"))
  | Some validator =>
      let report := snd (validate validator df "USUBJID") in
      Ok {| report_domain := report_domain report;
            source_path := source_path;
            total_records := total_records report;
            status := status report;
            report_results := report_results report |}
  end.

(** The names under which the factory of a domain registers its rules,
    in the order of registration. *)
Definition shipped_rule_names (domain : string) : list string :=
  if String.eqb domain "DM"
  then ["DM_001"; "DM_002"; "DM_003"; "DM_004"; "DM_005"; "DM_006"]
  else if String.eqb domain "AE"
  then ["AE_001"; "AE_002"; "AE_003"; "AE_004"; "AE_005"]
  else if String.eqb domain "VS"
  then ["VS_001"; "VS_002"; "VS_003"; "VS_004"]
  else if String.eqb domain "LB"
  then ["LB_001"; "LB_002"; "LB_003"; "LB_004"]
  else [].

(** [DataQualityReport.to_dict()["summary"]] *)
Record Summary := {
  total_checks : nat;
  summary_passed : nat;
  summary_failed : nat;
  errors : nat;
  warnings : nat
}.

Definition summary (self : DataQualityReport) : Summary :=
  let results := report_results self in
  {| total_checks := length results;
     summary_passed := length (filter (fun r => passed r = true) results);
     summary_failed := length (filter (fun r => passed r = false) results);
     errors :=
       length (filter (fun r => passed r = false /\ severity r = ERROR) results);
     warnings :=
       length (filter (fun r => passed r = false /\ severity r = WARNING) results)
  |}.

(** The order of the statuses, from best to worst. *)
Definition status_rank (s : ValidationStatus) : nat :=
  match s with
  | PASSED => 0
  | PASSED_WITH_WARNINGS => 1
  | FAILED => 2
  end.

End Runner.

Module RunnerSamples.
Import Py Pandas Validators ValidatorSamples.

(** Subjects with an identifier and no ARM column. *)
Definition dm_without_arm : DataFrame :=
  {| df_columns := [("USUBJID", "object")];
     df_rows := [[Str "SUBJ001"]; [Str "SUBJ002"]] |}.

(** Checks for the samples: the not-null checks as the factories define
    them, and every other check one that raises. *)
Definition unavailable (df : DataFrame) : outcome (bool * DataFrame) :=
  Raise (Exn "NotImplementedError" "").

Definition sample_checks : Runner.Checks :=
  {| Runner.dm_check_usubjid_unique := unavailable;
     Runner.dm_check_usubjid_not_null := check_not_null "USUBJID";
     Runner.dm_check_age_range := unavailable;
     Runner.dm_check_sex_values := unavailable;
     Runner.dm_check_arm_populated := check_not_null "ARM";
     Runner.dm_check_rfstdtc_format := unavailable;
     Runner.ae_check_usubjid_not_null := check_not_null "USUBJID";
     Runner.ae_check_aeterm_not_null := check_not_null "AETERM";
     Runner.ae_check_severity_values := unavailable;
     Runner.ae_check_serious_flag := unavailable;
     Runner.ae_check_date_logic := unavailable;
     Runner.vs_check_usubjid_not_null := check_not_null "USUBJID";
     Runner.vs_check_vstestcd_not_null := check_not_null "VSTESTCD";
     Runner.vs_check_positive_values := unavailable;
     Runner.vs_check_vital_ranges := unavailable;
     Runner.lb_check_usubjid_not_null := check_not_null "USUBJID";
     Runner.lb_check_lbtestcd_not_null := check_not_null "LBTESTCD";
     Runner.lb_check_nrind_values := unavailable;
     Runner.lb_check_range_logic := unavailable |}.

End RunnerSamples.


(** ** The lineage tracker ([LineageTracker], [DataAsset], [LineageEvent])

    The tracker appends to its two asset lists in place, and the event that
    [build_event] returns holds the same two list objects.  The list objects
    therefore live in a store, and the tracker and the event hold references
    into it. *)

Module Tracker.

Inductive LineageEventType :=
| INGESTION | TRANSFORMATION | VALIDATION | PROMOTION | EXPORT.

Inductive DataLayer :=
| LANDING | BRONZE | SILVER | GOLD | EXPORT_LAYER.

Record DataAsset := {
  asset_id     : string;
  name         : string;
  asset_type   : string;
  location     : string;
  layer        : DataLayer;
  schema_hash  : option string;
  record_count : option Z;
  created_at   : string;
  metadata     : list (string * string)
}.

(** The list objects, by reference. *)
Abbreviation store := (list (list DataAsset)).
Abbreviation ref := nat.

(** The list behind a reference. *)
Definition deref (st : store) (r : ref) : list DataAsset :=
  default [] (st !! r).

Record LineageTracker := {
  event_id             : string;
  event_type           : LineageEventType;
  triggered_by         : string;
  start_time           : Z;               (* microseconds *)
  input_assets         : ref;
  output_assets        : ref;
  transformation_logic : option string;
  parameters           : list (string * string);
  validation_status    : option string;
  records_in           : Z;
  records_out          : Z;
  records_rejected     : Z;
  execution_id         : option string
}.

Record LineageEvent := {
  ev_event_id             : string;
  ev_event_type           : LineageEventType;
  ev_timestamp            : Z;
  ev_triggered_by         : string;
  ev_input_assets         : ref;
  ev_output_assets        : ref;
  ev_transformation_logic : option string;
  ev_parameters           : list (string * string);
  ev_validation_status    : option string;
  ev_records_in           : Z;
  ev_records_out          : Z;
  ev_records_rejected     : Z;
  ev_execution_id         : option string;
  ev_duration_seconds     : Q
}.

(** [LineageTracker.__init__]: [uuid] is the fresh identifier and [now] the
    clock; the two empty lists are new objects at the end of the store. *)
Definition new_tracker (st : store) (uuid : string) (now : Z)
    (triggered_by : string) (event_type : LineageEventType)
  : store * LineageTracker :=
  ((st ++ [[]; []])%list,
   {| event_id := uuid;
      event_type := event_type;
      triggered_by := triggered_by;
      start_time := now;
      input_assets := length st;
      output_assets := S (length st);
      transformation_logic := None;
      parameters := [];
      validation_status := None;
      records_in := 0;
      records_out := 0;
      records_rejected := 0;
      execution_id := None |}).

(** [if asset.record_count: total += asset.record_count] *)
Definition add_count (total : Z) (asset : DataAsset) : Z :=
  match record_count asset with
  | Some n => if (n =? 0)%Z then total else (total + n)%Z
  | None => total
  end.

Definition add_input (st : store) (self : LineageTracker) (asset : DataAsset)
  : store * LineageTracker :=
  (<[input_assets self := (deref st (input_assets self) ++ [asset])%list]> st,
   {| event_id := event_id self;
      event_type := event_type self;
      triggered_by := triggered_by self;
      start_time := start_time self;
      input_assets := input_assets self;
      output_assets := output_assets self;
      transformation_logic := transformation_logic self;
      parameters := parameters self;
      validation_status := validation_status self;
      records_in := add_count (records_in self) asset;
      records_out := records_out self;
      records_rejected := records_rejected self;
      execution_id := execution_id self |}).

Definition add_output (st : store) (self : LineageTracker) (asset : DataAsset)
  : store * LineageTracker :=
  (<[output_assets self := (deref st (output_assets self) ++ [asset])%list]> st,
   {| event_id := event_id self;
      event_type := event_type self;
      triggered_by := triggered_by self;
      start_time := start_time self;
      input_assets := input_assets self;
      output_assets := output_assets self;
      transformation_logic := transformation_logic self;
      parameters := parameters self;
      validation_status := validation_status self;
      records_in := records_in self;
      records_out := add_count (records_out self) asset;
      records_rejected := records_rejected self;
      execution_id := execution_id self |}).

(** [set_transformation(description, parameters=None)]: the parameters
    replace the old ones only when they are given and not empty. *)
Definition set_transformation (self : LineageTracker) (description : string)
    (parameters' : option (list (string * string))) : LineageTracker :=
  {| event_id := event_id self;
     event_type := event_type self;
     triggered_by := triggered_by self;
     start_time := start_time self;
     input_assets := input_assets self;
     output_assets := output_assets self;
     transformation_logic := Some description;
     parameters := match parameters' with
                   | Some (p :: ps) => p :: ps
                   | Some [] | None => parameters self
                   end;
     validation_status := validation_status self;
     records_in := records_in self;
     records_out := records_out self;
     records_rejected := records_rejected self;
     execution_id := execution_id self |}.

(** [set_validation_status(status, rejected_count=0)] *)
Definition set_validation_status (self : LineageTracker) (status : string)
    (rejected_count : Z) : LineageTracker :=
  {| event_id := event_id self;
     event_type := event_type self;
     triggered_by := triggered_by self;
     start_time := start_time self;
     input_assets := input_assets self;
     output_assets := output_assets self;
     transformation_logic := transformation_logic self;
     parameters := parameters self;
     validation_status := Some status;
     records_in := records_in self;
     records_out := records_out self;
     records_rejected := rejected_count;
     execution_id := execution_id self |}.

Definition set_execution_id (self : LineageTracker) (execution_id' : string)
  : LineageTracker :=
  {| event_id := event_id self;
     event_type := event_type self;
     triggered_by := triggered_by self;
     start_time := start_time self;
     input_assets := input_assets self;
     output_assets := output_assets self;
     transformation_logic := transformation_logic self;
     parameters := parameters self;
     validation_status := validation_status self;
     records_in := records_in self;
     records_out := records_out self;
     records_rejected := records_rejected self;
     execution_id := Some execution_id' |}.

(** [build_event]; [now] is the clock at the call, and the duration is in
    seconds.  The timestamp is the start time, before its rendering by
    [isoformat]. *)
Definition build_event (self : LineageTracker) (now : Z) : LineageEvent :=
  let end_time := now in
  let duration := (inject_Z (end_time - start_time self) / 1000000)%Q in
  {| ev_event_id := event_id self;
     ev_event_type := event_type self;
     ev_timestamp := start_time self;
     ev_triggered_by := triggered_by self;
     ev_input_assets := input_assets self;
     ev_output_assets := output_assets self;
     ev_transformation_logic := transformation_logic self;
     ev_parameters := parameters self;
     ev_validation_status := validation_status self;
     ev_records_in := records_in self;
     ev_records_out := records_out self;
     ev_records_rejected := records_rejected self;
     ev_execution_id := execution_id self;
     ev_duration_seconds := duration |}.

(** [DataAsset.to_dict] and [LineageEvent.to_dict], as far as the lineage
    queries read the dictionaries. *)
Definition DataAsset_to_dict (a : DataAsset) : Lineage.Asset :=
  {| Lineage.asset_id := asset_id a; Lineage.location := Some (location a) |}.

Definition LineageEvent_to_dict (st : store) (e : LineageEvent) : Lineage.Event :=
  {| Lineage.event_id := ev_event_id e;
     Lineage.input_assets :=
       Some (map DataAsset_to_dict (deref st (ev_input_assets e)));
     Lineage.output_assets :=
       Some (map DataAsset_to_dict (deref st (ev_output_assets e))) |}.

(** A call of one of the five methods of an open tracker. *)
Inductive Call :=
| AddInput (asset : DataAsset)
| AddOutput (asset : DataAsset)
| SetTransformation (description : string)
                    (parameters : option (list (string * string)))
| SetValidationStatus (status : string) (rejected_count : Z)
| SetExecutionId (execution_id : string).

Definition call (state : store * LineageTracker) (c : Call)
  : store * LineageTracker :=
  let '(st, self) := state in
  match c with
  | AddInput asset => add_input st self asset
  | AddOutput asset => add_output st self asset
  | SetTransformation description parameters =>
      (st, set_transformation self description parameters)
  | SetValidationStatus status rejected_count =>
      (st, set_validation_status self status rejected_count)
  | SetExecutionId execution_id => (st, set_execution_id self execution_id)
  end.

(** The assets that a sequence of calls adds, and the sum of their record
    counts, an asset without a count adding nothing. *)
Definition added_inputs (calls : list Call) : list DataAsset :=
  omap (fun c => match c with AddInput a => Some a | _ => None end) calls.

Definition added_outputs (calls : list Call) : list DataAsset :=
  omap (fun c => match c with AddOutput a => Some a | _ => None end) calls.

Definition total_count (assets : list DataAsset) : Z :=
  foldr (fun a total => (default 0 (record_count a) + total)%Z) 0%Z assets.

(** What the calls of the three setters gave, in the order of the calls:
    the descriptions, the parameters that were given and not empty, the
    statuses with their rejected counts, the execution identifiers. *)
Definition descriptions (calls : list Call) : list string :=
  omap (fun c => match c with SetTransformation d _ => Some d | _ => None end)
       calls.

Definition given_parameters (calls : list Call)
  : list (list (string * string)) :=
  omap (fun c => match c with
                 | SetTransformation _ (Some (p :: ps)) => Some (p :: ps)
                 | _ => None
                 end) calls.

Definition statuses (calls : list Call) : list (string * Z) :=
  omap (fun c => match c with
                 | SetValidationStatus s n => Some (s, n)
                 | _ => None
                 end) calls.

Definition execution_ids (calls : list Call) : list string :=
  omap (fun c => match c with SetExecutionId i => Some i | _ => None end) calls.

(** A fresh tracker after a sequence of calls. *)
Definition tracker_after (st : store) (uuid : string) (now : Z)
    (triggered_by : string) (event_type : LineageEventType)
    (calls : list Call) : store * LineageTracker :=
  foldl call (new_tracker st uuid now triggered_by event_type) calls.

End Tracker.

Module TrackerSamples.
Import Tracker.

Definition bronze_dm : DataAsset :=
  {| asset_id := "bronze_dm_001";
     name := "dm.parquet";
     asset_type := "file";
     location := "s3://clinical-trial-dev/bronze/synthetic/dm/dm.parquet";
     layer := BRONZE;
     schema_hash := None;
     record_count := Some 1000%Z;
     created_at := "";
     metadata := [] |}.

Definition silver_dm : DataAsset :=
  {| asset_id := "silver_dm_001";
     name := "dm.parquet";
     asset_type := "file";
     location := "s3://clinical-trial-dev/silver/dm/dm.parquet";
     layer := SILVER;
     schema_hash := None;
     record_count := Some 995%Z;
     created_at := "";
     metadata := [] |}.

(** The calls of the demonstration at the end of the module. *)
Definition demo_calls : list Call :=
  [ AddInput bronze_dm;
    SetTransformation
      "CDISC SDTM standardization: column renaming, type casting, controlled terminology validation"
      (Some [("cdisc_version", "3.3")]);
    SetValidationStatus "PASSED_WITH_WARNINGS" 5;
    AddOutput silver_dm;
    SetExecutionId "jr_abc123xyz" ].

End TrackerSamples.


(** ** Reachability in the lineage graph *)

Module ReachSpec.
Import Lineage LineageSpec.

(** [walk R seed n l]: [l] is reached from [seed] by [n] steps of [R]. *)
Inductive walk (R : string -> string -> Prop) (seed : string)
  : nat -> string -> Prop :=
| walk_here : walk R seed 0 seed
| walk_step n l l' : walk R seed n l -> R l l' -> walk R seed (S n) l'.

(** Reached by a walk of at most [depth] steps. *)
Definition within (R : string -> string -> Prop) (seed : string) (depth : Z)
    (l : string) : Prop :=
  exists n, (Z.of_nat n <= depth)%Z /\ walk R seed n l.

(** One step upstream: from a location that some record of the batch
    writes to a location that the same record reads.  One step downstream
    is the converse. *)
Definition upstream_step (lineage_records : list Event) (l l' : string)
  : Prop :=
  exists r, r ∈ lineage_records
            /\ l ∈ output_locations r /\ l' ∈ input_locations r.

Definition downstream_step (lineage_records : list Event) (l l' : string)
  : Prop :=
  exists r, r ∈ lineage_records
            /\ l ∈ input_locations r /\ l' ∈ output_locations r.

(** The record with its two sides exchanged. *)
Definition mirror (e : Event) : Event :=
  {| event_id := event_id e;
     input_assets := output_assets e;
     output_assets := input_assets e |}.

End ReachSpec.

(** * Properties *)

(** ** The contract engine *)

Module ContractTactics.
Import Py Pandas DataContracts.

(** The five steps of [validate_column], one by one. *)
Ltac column_steps H :=
  unfold validate_column in H;
  repeat match type of H with
    | context [nullable ?c] => destruct (nullable c)
    | context [unique ?c] => destruct (unique c)
    | context [allowed_values ?c] => destruct (allowed_values c) as [|? ?]
    | context [min_value ?c] => destruct (min_value c) as [?|]
    | context [max_value ?c] => destruct (max_value c) as [?|]
    end;
  simpl in H;
  repeat match type of H with
    | context [compare_series ?cmp ?d ?b ?l] =>
        let E := fresh "E" in
        destruct (compare_series cmp d b l) as [?mask|?e] eqn:E; simpl in H
    end.

End ContractTactics.

Section ContractEngine.
Import Py Pandas DataContracts ContractSpec ContractSamples DriftSpec
  ContractJson ContractTactics.

Lemma exceeds_threshold_iff failed total :
  (0 < total)%nat ->
  exceeds_threshold failed total = true <-> (total < 20 * failed)%nat.
Proof.
  intros Ht. unfold exceeds_threshold.
  destruct total as [|n]; [lia|].
  unfold Qle_bool, Qdiv, Qinv, Qmult, inject_Z. simpl.
  rewrite negb_true_iff, Z.leb_gt. lia.
Qed.

Lemma exceeds_threshold_0 total : exceeds_threshold 0 total = false.
Proof. unfold exceeds_threshold, Qle_bool, Qdiv, Qmult. reflexivity. Qed.

(** *** Labels and what [df[col]] is *)

Lemma positions_nil col labels :
  positions col labels = [] <-> col ∉ labels.
Proof.
  induction labels as [|l labels IH]; simpl.
  - split; [intros _; apply not_elem_of_nil|done].
  - rewrite not_elem_of_cons, <- IH.
    destruct (String.eqb col l) eqn:He.
    + apply String.eqb_eq in He. split; [done|]. by intros [? _].
    + apply String.eqb_neq in He.
      destruct (positions col labels); simpl; naive_solver.
Qed.

Lemma positions_once col labels :
  NoDup labels -> col ∈ labels ->
  exists i, positions col labels = [i] /\ position col labels = Some i.
Proof.
  induction 1 as [|l labels Hl Hnd IH]; [by intros ?%not_elem_of_nil|].
  intros Hin. simpl. destruct (String.eqb col l) eqn:He.
  - apply String.eqb_eq in He as ->. exists 0%nat.
    apply positions_nil in Hl. by rewrite Hl.
  - apply String.eqb_neq in He.
    apply elem_of_cons in Hin as [?|Hin]; [done|].
    destruct (IH Hin) as (i & -> & ->). by exists (S i).
Qed.

Lemma positions_twice labels :
  ~ NoDup labels ->
  exists col i j rest, col ∈ labels /\ positions col labels = i :: j :: rest.
Proof.
  induction labels as [|l labels IH]; [intros []; constructor|].
  intros Hdup. destruct (decide (l ∈ labels)) as [Hin|Hout].
  - exists l. simpl. rewrite String.eqb_refl.
    destruct (positions l labels) as [|j rest] eqn:Hp.
    + apply positions_nil in Hp. done.
    + exists 0%nat, (S j), (map S rest). split; [left|done].
  - destruct IH as (col & i & j & rest & Hcol & Hp).
    { intros Hnd. apply Hdup. by constructor. }
    exists col. simpl. rewrite Hp. simpl.
    destruct (String.eqb col l) eqn:He.
    + apply String.eqb_eq in He as ->. done.
    + exists (S i), (S j), (map S rest). split; [by right|done].
Qed.

Lemma getitem_once df col :
  NoDup (columns df) -> col ∈ columns df ->
  getitem df col = Ok (Series (label_dtype df col) (column df col)).
Proof.
  intros Hnd Hin. unfold getitem, label_dtype, column.
  by destruct (positions_once _ _ Hnd Hin) as (i & -> & ->).
Qed.

Lemma dtype_of_once df col :
  NoDup (columns df) -> col ∈ columns df ->
  dtype_of df col = Ok (label_dtype df col).
Proof. intros Hnd Hin. unfold dtype_of. by rewrite getitem_once. Qed.

(** On the labels of the dataset [df[col].dtype] gives a dtype or the
    one [AttributeError]. *)
Lemma dtype_of_cases df col :
  col ∈ columns df ->
  (exists dtype, dtype_of df col = Ok dtype) \/ dtype_of df col = Raise no_dtype.
Proof.
  intros Hin. unfold dtype_of, getitem.
  destruct (positions col (columns df)) as [|i [|j rest]] eqn:Hp; simpl.
  - by apply positions_nil in Hp.
  - left. eauto.
  - by right.
Qed.

Lemma dtype_of_twice df :
  ~ NoDup (columns df) ->
  exists col, col ∈ columns df /\ dtype_of df col = Raise no_dtype.
Proof.
  intros Hdup.
  destruct (positions_twice _ Hdup) as (col & i & j & rest & Hin & Hp).
  exists col. split; [done|]. unfold dtype_of, getitem. by rewrite Hp.
Qed.

(** *** Loops that may raise *)

Lemma mapM_ok {A B} (f : A -> outcome B) (g : A -> B) (l : list A) :
  (forall x, x ∈ l -> f x = Ok (g x)) -> mapM f l = Ok (map g l).
Proof.
  induction l as [|x l IH]; intros Hf; simpl; [done|].
  rewrite Hf by left. simpl. rewrite IH; [done|].
  intros y Hy. apply Hf. by right.
Qed.

Lemma mapM_raise {A B} (f : A -> outcome B) (e : exn) (l : list A) :
  (forall x, x ∈ l -> (exists y, f x = Ok y) \/ f x = Raise e) ->
  (exists x, x ∈ l /\ f x = Raise e) ->
  mapM f l = Raise e.
Proof.
  induction l as [|x l IH]; intros Hf (x0 & Hin & Hx0).
  - by apply not_elem_of_nil in Hin.
  - simpl. destruct (Hf x ltac:(left)) as [[y Hx]|Hx]; rewrite Hx; [|done].
    simpl. rewrite IH; [done| |].
    + intros z Hz. apply Hf. by right.
    + apply elem_of_cons in Hin as [->|Hin]; [|by exists x0].
      rewrite Hx in Hx0. discriminate Hx0.
Qed.


(** *** Schema detection *)

Lemma column_map_dom cols (m : gmap string ColumnContract) :
  dom (foldl (fun m c => <[name c := c]> m) m cols)
  = list_to_set (map name cols) ∪ dom m.
Proof.
  revert m. induction cols as [|c cols IH]; intros m; simpl.
  - by rewrite (left_id_L ∅ (∪)).
  - rewrite IH, dom_insert_L.
    rewrite (assoc_L (∪)). f_equal. apply (comm_L (∪)).
Qed.

Lemma declared_dom contract :
  dom (column_map (new_validator contract)) = declared contract.
Proof.
  unfold declared. simpl. rewrite column_map_dom, dom_empty_L.
  by rewrite (right_id_L ∅ (∪)).
Qed.

Lemma omap_id_map {A B} (g : A -> option B) (l : list A) :
  omap id (map g l) = omap g l.
Proof.
  induction l as [|x l IH]; [done|].
  change (omap id ([g x] ++ map g l)%list = omap g ([x] ++ l)%list).
  rewrite !omap_app, IH. f_equal.
Qed.

(** With distinct labels the detection returns. *)
Lemma detect_schema_changes_distinct contract df :
  NoDup (columns df) ->
  detect_schema_changes (new_validator contract) df
  = Ok (changes_of contract df).
Proof.
  intros Hnd. unfold detect_schema_changes, changes_of.
  rewrite declared_dom. fold (incoming df).
  rewrite (mapM_ok _ (added_change contract df)).
  2: { intros col Hin.
       apply elem_of_elements, elem_of_difference in Hin as [Hin _].
       apply elem_of_list_to_set in Hin. by rewrite dtype_of_once. }
  rewrite (mapM_ok _
             (fun col =>
                if negb (_types_compatible
                           (declared_dtype (new_validator contract) col)
                           (_normalize_dtype (label_dtype df col)))
                then Some (type_change contract df col)
                else None)).
  2: { intros col Hin.
       apply elem_of_elements, elem_of_intersection in Hin as [Hin _].
       apply elem_of_list_to_set in Hin. rewrite dtype_of_once by done.
       simpl. by destruct (_types_compatible _ _). }
  simpl. by rewrite omap_id_map.
Qed.

Lemma mapM_cases {A B} (f : A -> outcome B) (e : exn) (l : list A) :
  (forall x, x ∈ l -> (exists y, f x = Ok y) \/ f x = Raise e) ->
  (exists ys, mapM f l = Ok ys) \/ mapM f l = Raise e.
Proof.
  induction l as [|x l IH]; intros Hf; simpl; [eauto|].
  destruct (Hf x ltac:(left)) as [[y Hx]|Hx]; rewrite Hx; [|by right].
  simpl. destruct IH as [[ys ->]| ->]; simpl; eauto.
  intros z Hz. apply Hf. by right.
Qed.

(** With a duplicated label it raises the [AttributeError]. *)
Lemma detect_schema_changes_duplicated contract df :
  ~ NoDup (columns df) ->
  detect_schema_changes (new_validator contract) df = Raise no_dtype.
Proof.
  intros Hdup. destruct (dtype_of_twice df Hdup) as (col & Hcol & Hraise).
  unfold detect_schema_changes. rewrite declared_dom. fold (incoming df).
  match goal with
  | |- context [mapM ?f (elements (incoming df ∖ declared contract))] =>
      set (added := f)
  end.
  match goal with
  | |- context [mapM ?f (elements (incoming df ∩ declared contract))] =>
      set (changed := f)
  end.
  assert (Hadded : forall x, x ∈ elements (incoming df ∖ declared contract) ->
            (exists y, added x = Ok y) \/ added x = Raise no_dtype).
  { intros x Hx.
    apply elem_of_elements, elem_of_difference in Hx as [Hx _].
    apply elem_of_list_to_set in Hx. unfold added.
    destruct (dtype_of_cases df x Hx) as [[d ->]| ->]; simpl; eauto. }
  assert (Hchanged : forall x, x ∈ elements (incoming df ∩ declared contract) ->
            (exists y, changed x = Ok y) \/ changed x = Raise no_dtype).
  { intros x Hx.
    apply elem_of_elements, elem_of_intersection in Hx as [Hx _].
    apply elem_of_list_to_set in Hx. unfold changed.
    destruct (dtype_of_cases df x Hx) as [[d ->]| ->]; simpl; [|eauto].
    destruct (_types_compatible _ _); simpl; eauto. }
  destruct (decide (col ∈ declared contract)) as [Hin|Hout].
  - destruct (mapM_cases added no_dtype _ Hadded) as [[ys ->]| ->]; [|done].
    simpl. rewrite (mapM_raise changed no_dtype); [done|done|].
    exists col. split.
    + apply elem_of_elements, elem_of_intersection. split; [|done].
      by apply elem_of_list_to_set.
    + unfold changed. by rewrite Hraise.
  - rewrite (mapM_raise added no_dtype); [done|done|].
    exists col. split.
    + apply elem_of_elements, elem_of_difference. split; [|done].
      by apply elem_of_list_to_set.
    + unfold added. by rewrite Hraise.
Qed.

(** The detection returns exactly for distinct labels. *)
Lemma detect_schema_changes_cases contract df :
  (NoDup (columns df)
   /\ detect_schema_changes (new_validator contract) df
      = Ok (changes_of contract df))
  \/ (~ NoDup (columns df)
      /\ detect_schema_changes (new_validator contract) df = Raise no_dtype).
Proof.
  destruct (decide (NoDup (columns df))) as [Hnd|Hdup].
  - left. split; [done|]. by apply detect_schema_changes_distinct.
  - right. split; [done|]. by apply detect_schema_changes_duplicated.
Qed.

(** *** Value checks *)


(** What [df[col]] is has one row per row of the dataset. *)
Lemma getitem_length df col col_data :
  getitem df col = Ok col_data -> item_length col_data = len df.
Proof.
  unfold getitem, len.
  destruct (positions col (columns df)) as [|i [|j rest]]; [done| |];
    intros [= <-]; simpl; by rewrite length_map.
Qed.








Lemma mapM_length {A B} (f : A -> outcome B) l m :
  mapM f l = Ok m -> length m = length l.
Proof.
  revert m. induction l as [|x l IH]; intros m; simpl.
  - by intros [= <-].
  - destruct (f x) as [y|e]; simpl; [|done].
    destruct (mapM f l) as [ys|e]; simpl; [|done].
    intros [= <-]. simpl. by rewrite (IH ys).
Qed.

Lemma compare_series_length cmp dtype bound data mask :
  compare_series cmp dtype bound data = Ok mask ->
  length mask = length data.
Proof.
  unfold compare_series. destruct (elementwise dtype); [|done].
  apply mapM_length.
Qed.



(** Without rows no check counts anything. *)
Lemma validate_column_no_rows col_contract col_data r :
  item_length col_data = 0%nat ->
  validate_column col_contract col_data = Ok r ->
  failed_count r = 0%nat.
Proof.
  intros Hlen H.
  destruct col_data as [dtype [|c data]|dtypes [|row rows]];
    try discriminate Hlen;
    column_steps H; try discriminate H; injection H as <-; simpl;
    repeat match goal with
      | E : compare_series _ _ _ [] = Ok ?m |- _ =>
          apply compare_series_length in E; destruct m; [clear E|done]
      end; reflexivity.
Qed.



Lemma validate_columns_no_rows df cols results vv :
  df_rows df = [] -> all_clean results ->
  validate_columns df cols results = Ok vv -> all_clean vv.
Proof.
  intros Hrows. revert results.
  induction cols as [|c cols IH]; intros results Hres; simpl.
  - by intros [= <-].
  - destruct (has_column df (name c)); simpl; [|by apply IH].
    destruct (getitem df (name c)) as [col_data|e] eqn:Hit; simpl; [|done].
    destruct (validate_column c col_data) as [r|e] eqn:Hr; simpl; [|done].
    apply IH. apply map_Forall_insert_2; [|done].
    eapply validate_column_no_rows; [|done].
    rewrite (getitem_length _ _ _ Hit). unfold len. by rewrite Hrows.
Qed.

Lemma sum_failed_clean m : all_clean m -> sum_failed m = 0%nat.
Proof.
  unfold sum_failed, all_clean.
  induction m as [|k v m Hk Hfold IH] using map_first_key_ind.
  - by rewrite map_fold_empty.
  - intros Hall. rewrite map_fold_insert_first_key by done.
    apply map_Forall_insert in Hall as [-> Hall]; [|done].
    by rewrite IH.
Qed.

(** The decision as the code nests it, against the policy as the design
    document orders it. *)
Lemma decision_matches_policy (changes : list SchemaChange) failed total :
  (0 < failed -> 0 < total)%nat ->
  (if existsb is_breaking changes then Ok ("quarantine", false)
   else if bool_decide (0 < failed)%nat
        then ratio ← true_div failed total;
             if negb (Qle_bool ratio (5 # 100)) then Ok ("quarantine", false)
             else Ok ("alert", true)
        else match changes with
             | _ :: _ => Ok ("alert", true)
             | [] => Ok ("accept", true)
             end)
  = Ok (decision_policy (existsb is_breaking changes) failed total
                        (any_change changes)).
Proof.
  intros Hpos. unfold decision_policy.
  destruct (existsb is_breaking changes); [done|].
  case_bool_decide as Hf.
  - destruct total as [|n]; [lia|]. simpl.
    fold (exceeds_threshold failed (S n)).
    by destruct (exceeds_threshold failed (S n)).
  - assert (failed = 0%nat) as -> by lia.
    rewrite exceeds_threshold_0. by destruct changes.
Qed.

Lemma len_0_no_rows df : len df = 0%nat -> df_rows df = [].
Proof. unfold len. by destruct (df_rows df). Qed.

(** A failed record is a record: the value checks count rows, so they
    count nothing on a dataset without rows. *)
Lemma failed_needs_rows self df vv :
  validate_values self df = Ok vv -> (0 < sum_failed vv -> 0 < len df)%nat.
Proof.
  intros Hvv Hfailed.
  destruct (len df) as [|n] eqn:Hlen; [|lia].
  rewrite sum_failed_clean in Hfailed; [lia|].
  eapply validate_columns_no_rows;
    [by apply len_0_no_rows | apply map_Forall_empty | exact Hvv].
Qed.

(** What [validate_against_contract] returns once the detection and the
    value checks have returned. *)
Lemma validate_against_contract_ok df contract changes vv :
  detect_schema_changes (new_validator contract) df = Ok changes ->
  validate_values (new_validator contract) df = Ok vv ->
  let d := decision_policy (existsb is_breaking changes) (sum_failed vv)
                           (len df) (any_change changes) in
  validate_against_contract df contract
  = Ok {| res_contract_name := contract_name contract;
          res_contract_version := version contract;
          schema_changes := changes;
          has_breaking_changes := existsb is_breaking changes;
          value_validation := vv;
          total_records := len df;
          failed_records := sum_failed vv;
          is_valid := snd d;
          action := fst d |}.
Proof.
  intros Hch Hvv. unfold validate_against_contract. rewrite Hch. simpl.
  rewrite Hvv. simpl.
  rewrite decision_matches_policy; [done|].
  by eapply failed_needs_rows.
Qed.

(** It raises what the detection raises, and else what the value checks
    raise. *)
Lemma validate_against_contract_detect_raises df contract e :
  detect_schema_changes (new_validator contract) df = Raise e ->
  validate_against_contract df contract = Raise e.
Proof. intros H. unfold validate_against_contract. by rewrite H. Qed.

Lemma validate_against_contract_values_raise df contract changes e :
  detect_schema_changes (new_validator contract) df = Ok changes ->
  validate_values (new_validator contract) df = Raise e ->
  validate_against_contract df contract = Raise e.
Proof.
  intros Hch H. unfold validate_against_contract. rewrite Hch. simpl.
  by rewrite H.
Qed.


(** *** The decision *)








(** *** A missing column *)




(** *** Loading a contract *)

(** Counterexample to C8: the document names USUBJID as primary key and
    declares no such column; it loads, and a dataset is evaluated against
    the loaded contract. *)
Lemma undeclared_primary_key_loads :
  load "" "" (document_of (to_dict dm_contract)) = Ok dm_contract
  /\ ~ primary_key_declared dm_contract
  /\ is_ok (validate_against_contract (dm_dataset 2 0) dm_contract) = true.
Proof.
  split; [reflexivity|]. split; [|by vm_compute].
  unfold primary_key_declared. simpl. intros H.
  apply Forall_cons_1 in H as [H _].
  apply list_elem_of_In in H. simpl in H.
  repeat destruct H as [H|H]; try discriminate H; done.
Qed.

(** C8, amended: [DataContract.load] does not look at the primary key.
    With another primary key in the document, or with none, it raises the
    same error when it raises, and returns the same contract but for the
    primary key when it returns: the key of the document, as it is given,
    or the empty list.  The validation never reads the primary key. *)
Theorem load_never_checks_primary_key (created updated : string)
    (data : Document) (pk : option (list string)) :
  match load created updated data with
  | Ok c =>
      primary_key c = default [] (doc_primary_key data)
      /\ load created updated (with_document_primary_key data pk)
         = Ok (with_primary_key c (default [] pk))
      /\ forall df,
           validate_against_contract df (with_primary_key c (default [] pk))
           = validate_against_contract df c
  | Raise e =>
      load created updated (with_document_primary_key data pk) = Raise e
  end.
Proof.
  unfold load. destruct data as [n v d descr o cols mode pk0 fk ca ua other].
  simpl.
  destruct cols as [cols|]; simpl; [|done].
  destruct (mapM ColumnContract_of_kwargs cols) as [columns|e]; simpl; [|done].
  destruct mode as [mode|]; simpl; [|done].
  destruct (CompatibilityMode_of_value mode) as [m|e]; simpl; [|done].
  unfold DataContract_of_kwargs. simpl.
  destruct other as [|k other]; [|done].
  destruct n, v, d, descr, o; try done.
Qed.

End ContractEngine.

(** ** The validation engine *)

Section ValidationEngine.
Import Py Pandas Validators ValidatorSpec ValidatorSamples.

Lemma foldl_snoc_map {A B} (f : A -> B) (l : list A) (acc : list B) :
  foldl (fun acc x => (acc ++ [f x])%list) acc l = (acc ++ map f l)%list.
Proof.
  revert acc. induction l as [|x l IH]; intros acc; simpl.
  - by rewrite app_nil_r.
  - by rewrite IH, <- app_assoc.
Qed.

(** The loop of [validate] yields the result of each rule, in the order
    of [self.rules]. *)
Lemma validate_results self df id_column :
  report_results (report_of self df id_column)
  = map (fun rule => run_rule rule df id_column (len df)) (rules self).
Proof.
  unfold report_of, validate. simpl.
  apply (foldl_snoc_map (fun rule => run_rule rule df id_column (len df))
           (rules self) []).
Qed.

Lemma validate_status self df id_column :
  status (report_of self df id_column)
  = overall_status (report_results (report_of self df id_column)).
Proof. reflexivity. Qed.

Lemma existsb_failed_with s results :
  existsb (failed_with s) results = true
  <-> exists r, r ∈ results /\ severity r = s /\ passed r = false.
Proof.
  rewrite existsb_exists. unfold failed_with. split.
  - intros (r & Hin & [Hp Hs]%andb_prop).
    exists r. split; [by apply list_elem_of_In|].
    split; [by apply bool_decide_eq_true in Hs | by apply negb_true_iff].
  - intros (r & Hin & Hs & Hp). exists r.
    split; [by apply list_elem_of_In|].
    rewrite Hp. simpl. by apply bool_decide_eq_true.
Qed.

Lemma run_rule_raise rule df id_column total e :
  func rule df = Raise e ->
  run_rule rule df id_column total
  = {| rule_name := name rule;
       description := rule_description rule;
       severity := ERROR;
       passed := false;
       records_checked := total;
       records_failed := total;
       failure_percentage := 100%Q;
       failed_record_ids := [];
       details := {[ "error" := exn_str e ]} |}.
Proof. intros H. unfold run_rule, try_rule. by rewrite H. Qed.

Lemma run_rule_checked rule df id_column total :
  records_checked (run_rule rule df id_column total) = total
  /\ rule_name (run_rule rule df id_column total) = name rule.
Proof.
  unfold run_rule, try_rule.
  by destruct (func rule df) as [[p failed_df]|e].
Qed.

(** Counterexample to C3: the only rule is informational and fails on
    the second subject; the status is PASSED although a result has not
    passed. *)
Lemma info_failure_still_passed :
  status (report_of info_validator dm_subjects "USUBJID") = PASSED
  /\ ~ Forall (fun r => passed r = true)
         (report_results (report_of info_validator dm_subjects "USUBJID")).
Proof.
  split; [reflexivity|].
  intros H. apply Forall_cons_1 in H as [H _]. discriminate H.
Qed.

(** C3, amended: the status is FAILED exactly when some ERROR result
    has not passed, PASSED exactly when every result that has not passed
    is informational, and PASSED_WITH_WARNINGS exactly when some WARNING
    result and no ERROR result has not passed. *)
Theorem status_of_report (self : ClinicalDataValidator) (df : DataFrame)
    (id_column : string) :
  let report := report_of self df id_column in
  (status report = FAILED
   <-> exists r, r ∈ report_results report
                 /\ severity r = ERROR /\ passed r = false)
  /\ (status report = PASSED
      <-> forall r, r ∈ report_results report ->
                    passed r = true \/ severity r = INFO)
  /\ (status report = PASSED_WITH_WARNINGS
      <-> (exists r, r ∈ report_results report
                     /\ severity r = WARNING /\ passed r = false)
          /\ forall r, r ∈ report_results report ->
                       severity r = ERROR -> passed r = true).
Proof.
  intros report. subst report. rewrite validate_status.
  generalize (report_results (report_of self df id_column)).
  intros results.
  unfold overall_status.
  pose proof (existsb_failed_with ERROR results) as He.
  pose proof (existsb_failed_with WARNING results) as Hw.
  destruct (existsb (failed_with ERROR) results) eqn:Ee;
    [|destruct (existsb (failed_with WARNING) results) eqn:Ew].
  - destruct (proj1 He eq_refl) as (r & Hin & Hs & Hp).
    split; [split; [intros _; eauto|done]|].
    split; (split; [done|]).
    + intros H. destruct (H r Hin) as [H'|H']; congruence.
    + intros [_ H]. specialize (H r Hin Hs). congruence.
  - destruct (proj1 Hw eq_refl) as (r & Hin & Hs & Hp).
    split; [split; [done|]|].
    { intros H. apply He in H. discriminate H. }
    split; split; try done.
    + intros H. destruct (H r Hin) as [H'|H']; congruence.
    + intros _. split; [eauto|].
      intros r' Hin' Hs'. destruct (passed r') eqn:Hp'; [done|].
      assert (false = true) by (apply He; eauto). done.
  - split; [split; [done|]|].
    { intros H. apply He in H. discriminate H. }
    split; split; try done.
    + intros _ r Hin. destruct (passed r) eqn:Hp; [by left|right].
      destruct (severity r) eqn:Hs; [| |done].
      * assert (false = true) by (apply He; eauto). done.
      * assert (false = true) by (apply Hw; eauto). done.
    + intros [H _]. apply Hw in H. discriminate H.
Qed.

Lemma result_at self df id_column i rule :
  rules self !! i = Some rule ->
  report_results (report_of self df id_column) !! i
  = Some (run_rule rule df id_column (len df)).
Proof.
  intros Hi. rewrite validate_results.
  change (map ?f ?l) with (f <$> l).
  by rewrite list_lookup_fmap, Hi.
Qed.




(** C5: [validate] returns a report with one result per registered
    rule, in the order of registration; the result of a rule whose
    predicate raises is a failed ERROR result that counts every record as
    failed, at 100 percent, with the message of the exception under
    "error" in its details. *)
Theorem one_result_per_rule (self : ClinicalDataValidator) (df : DataFrame)
    (id_column : string) :
  let report := report_of self df id_column in
  length (report_results report) = length (rules self)
  /\ map rule_name (report_results report) = map name (rules self)
  /\ total_records report = len df
  /\ forall i rule,
       rules self !! i = Some rule ->
       exists r,
         report_results report !! i = Some r
         /\ rule_name r = name rule
         /\ forall e,
              func rule df = Raise e ->
              passed r = false
              /\ severity r = ERROR
              /\ records_failed r = total_records report
              /\ failure_percentage r = 100%Q
              /\ details r !! "error" = Some (exn_str e).
Proof.
  intros report. subst report. rewrite validate_results.
  split; [by rewrite length_map|].
  split.
  { rewrite map_map. apply map_ext. intros rule. apply run_rule_checked. }
  split; [reflexivity|].
  intros i rule Hi.
  rewrite <- validate_results. eexists. split; [by apply result_at|].
  split; [apply run_rule_checked|].
  intros e He. rewrite (run_rule_raise _ _ _ _ e He). simpl.
  by repeat split.
Qed.

Lemma one_result_per_rule_witness :
  exists r,
    report_results (report_of dm_validator empty_frame "USUBJID") !! 0%nat
    = Some r
    /\ passed r = false
    /\ details r !! "error" = Some "'USUBJID'".
Proof.
  destruct (one_result_per_rule dm_validator empty_frame "USUBJID")
    as (_ & _ & _ & H).
  destruct (H 0%nat (Build_Rule "DM_002" "USUBJID cannot be null"
                       (check_not_null "USUBJID") ERROR))
    as (r & Hr & _ & He); [reflexivity|].
  exists r. split; [exact Hr|].
  destruct (He (Exn "KeyError" "'USUBJID'")) as (Hp & _ & _ & _ & Hd);
    [reflexivity|].
  by split.
Defined.

(** Counterexample to C6: DM_002 is registered twice on one engine. *)
Lemma same_name_registered_twice :
  map name (rules dm_validator_twice) = ["DM_002"; "DM_002"]
  /\ ~ names_unique dm_validator_twice.
Proof.
  split; [reflexivity|].
  unfold names_unique. simpl. intros H.
  apply NoDup_cons in H as [H _]. apply H. by left.
Qed.

(** C6, amended: [add_rule] always appends the rule to the registered
    ones, and never fails; when the name is registered already, the engine
    has two rules of that name afterwards. *)
Theorem add_rule_appends (self : ClinicalDataValidator)
    (name' description : string)
    (validation_func : DataFrame -> outcome (bool * DataFrame))
    (severity : ValidationSeverity) :
  let self' := add_rule self name' description validation_func severity in
  rules self'
  = (rules self ++ [Build_Rule name' description validation_func severity])%list
  /\ map name (rules self') = (map name (rules self) ++ [name'])%list
  /\ (name' ∈ map name (rules self) -> ~ names_unique self').
Proof.
  intros self'. subst self'. simpl.
  split; [reflexivity|]. split; [by rewrite map_app|].
  unfold names_unique. simpl. rewrite map_app. simpl.
  intros Hin Hnodup.
  apply NoDup_app in Hnodup as (_ & Hdisj & _).
  apply (Hdisj name' Hin). by left.
Qed.

Lemma add_rule_appends_witness : ~ names_unique dm_validator_twice.
Proof.
  apply (add_rule_appends dm_validator "DM_002" "ARM should be recorded"
           (check_not_null "ARM") WARNING).
  simpl. by left.
Defined.

End ValidationEngine.

(** ** The lineage queries *)

Section LineageQueries.
Import Lineage LineageSpec LineageSamples.

Section Loop.
Variable index : gmap string (list Event).
Variable next : Event -> list Asset.
Variable depth : Z.

Abbreviation loop := (Lineage.loop index next depth).
Abbreviation index_get := (Lineage.index_get index).
Abbreviation enqueue := (Lineage.enqueue next).

(** More fuel does not change a result. *)
Lemma loop_fuel_mono fuel fuel' result visited queue res :
  loop fuel result visited queue = Some res ->
  fuel <= fuel' ->
  loop fuel' result visited queue = Some res.
Proof.
  revert fuel' result visited queue.
  induction fuel as [|fuel IH]; intros fuel' result visited queue Hres Hle.
  - destruct queue as [|[loc d] queue]; simpl in Hres; [|done].
    by destruct fuel'.
  - destruct queue as [|[loc d] queue]; [by destruct fuel'|].
    destruct fuel' as [|fuel']; [lia|]. simpl in *.
    destruct (bool_decide (loc ∈ visited) || (depth <? d)%Z);
      apply IH; (done || lia).
Qed.

Lemma index_get_outside loc : loc ∉ dom index -> index_get loc = [].
Proof.
  intros H. unfold Lineage.index_get.
  apply not_elem_of_dom in H. by rewrite H.
Qed.

(** The loop ends: an expansion of a location of the index removes it
    from the locations not yet visited, and every other iteration
    shortens the queue. *)
Lemma loop_terminates_aux (n : nat) :
  forall queue visited result,
    size (dom index ∖ visited) = n ->
    exists fuel res, loop fuel result visited queue = Some res.
Proof.
  induction n as [n IHn] using lt_wf_ind.
  induction queue as [|[loc d] queue IHq]; intros visited result Hn.
  - by exists 0%nat, (result, visited).
  - destruct (bool_decide (loc ∈ visited) || (depth <? d)%Z) eqn:Hskip.
    + destruct (IHq visited result Hn) as (fuel & res & Hres).
      exists (S fuel), res. simpl. by rewrite Hskip.
    + destruct (orb_false_elim _ _ Hskip) as [Hnew _].
      apply bool_decide_eq_false in Hnew.
      destruct (decide (loc ∈ dom index)) as [Hin|Hout].
      * edestruct (IHn (size (dom index ∖ ({[loc]} ∪ visited))))
          as (fuel & res & Hres); [|reflexivity|].
        { rewrite <- Hn. apply subset_size. set_solver. }
        exists (S fuel), res. simpl. rewrite Hskip. exact Hres.
      * edestruct (IHq ({[loc]} ∪ visited)) as (fuel & res & Hres).
        { rewrite <- Hn. f_equal. set_solver. }
        exists (S fuel), res. simpl. rewrite Hskip.
        rewrite index_get_outside by done. exact Hres.
Qed.

Lemma loop_terminates result visited queue :
  exists fuel res,
    forall fuel', fuel <= fuel' ->
                  loop fuel' result visited queue = Some res.
Proof.
  destruct (loop_terminates_aux _ queue visited result eq_refl)
    as (fuel & res & Hres).
  exists fuel, res. intros fuel' Hle. by eapply loop_fuel_mono.
Qed.

(** The locations expanded during the loop, in their order: each was
    unvisited before, none occurs twice, and the returned list is the
    given one followed by what the index holds for each of them. *)
Lemma loop_trace fuel :
  forall result visited queue res visited',
    loop fuel result visited queue = Some (res, visited') ->
    exists trace,
      NoDup trace
      /\ (forall l, l ∈ trace -> l ∉ visited)
      /\ visited' = visited ∪ list_to_set trace
      /\ res = (result ++ flat_map index_get trace)%list.
Proof.
  induction fuel as [|fuel IH]; intros result visited queue res visited' Hres.
  - destruct queue as [|[loc d] queue]; simpl in Hres; [|done].
    injection Hres as <- <-. exists []. simpl.
    rewrite app_nil_r. repeat split; [constructor|set_solver|set_solver].
  - destruct queue as [|[loc d] queue]; simpl in Hres.
    { injection Hres as <- <-. exists []. simpl.
      rewrite app_nil_r. repeat split; [constructor|set_solver|set_solver]. }
    destruct (bool_decide (loc ∈ visited) || (depth <? d)%Z) eqn:Hskip.
    + by apply IH in Hres.
    + destruct (orb_false_elim _ _ Hskip) as [Hnew _].
      apply bool_decide_eq_false in Hnew.
      apply IH in Hres as (trace & Hnodup & Hfresh & -> & ->).
      exists (loc :: trace). repeat split.
      * apply NoDup_cons. split; [|done].
        intros Hin. apply Hfresh in Hin. set_solver.
      * intros l [->|Hl]%elem_of_cons; [done|].
        apply Hfresh in Hl. set_solver.
      * simpl. set_solver.
      * simpl. by rewrite <- app_assoc.
Qed.
End Loop.

(** *** The index *)

Abbreviation hit record loc :=
  (fun a : Asset => if decide (get_location a = loc) then [record] else []).

Lemma index_append_get index record a loc :
  default [] (index_append index record a !! loc)
  = (default [] (index !! loc) ++ hit record loc a)%list.
Proof.
  unfold index_append.
  destruct (decide (get_location a = loc)) as [<-|Hne].
  - rewrite lookup_alter_eq.
    destruct (index !! get_location a) as [l|] eqn:Hl.
    + by rewrite Hl.
    + by rewrite lookup_insert_eq.
  - rewrite lookup_alter_ne by done. rewrite app_nil_r.
    destruct (index !! get_location a); [done|].
    by rewrite lookup_insert_ne.
Qed.

Lemma index_fold_get record assets index loc :
  default [] (foldl (fun index a => index_append index record a) index assets
              !! loc)
  = (default [] (index !! loc) ++ flat_map (hit record loc) assets)%list.
Proof.
  revert index. induction assets as [|a assets IH]; intros index; simpl.
  - by rewrite app_nil_r.
  - by rewrite IH, index_append_get, <- app_assoc.
Qed.

Lemma build_index_get lineage_records by_input by_output loc :
  let acc := foldl index_record (by_input, by_output) lineage_records in
  default [] (acc.1 !! loc)
  = (default [] (by_input !! loc) ++ indexed get_inputs lineage_records loc)%list
  /\ default [] (acc.2 !! loc)
     = (default [] (by_output !! loc)
        ++ indexed get_outputs lineage_records loc)%list.
Proof.
  revert by_input by_output.
  induction lineage_records as [|record rest IH]; intros by_input by_output;
    simpl.
  - by rewrite !app_nil_r.
  - destruct (IH (foldl (fun index a => index_append index record a) by_input
                        (get_inputs record))
                 (foldl (fun index a => index_append index record a) by_output
                        (get_outputs record))) as [Hi Ho].
    simpl in Hi, Ho. rewrite Hi, Ho, !index_fold_get, <- !app_assoc. done.
Qed.

Lemma new_query_index lineage_records loc :
  index_get (by_input (new_query lineage_records)) loc
  = indexed get_inputs lineage_records loc
  /\ index_get (by_output (new_query lineage_records)) loc
     = indexed get_outputs lineage_records loc.
Proof.
  unfold new_query, _build_index, index_get.
  pose proof (build_index_get lineage_records ∅ ∅ loc) as H. simpl in H.
  destruct (foldl index_record (∅, ∅) lineage_records) as [bi bo].
  simpl in *. by rewrite !lookup_empty in H.
Qed.

(** *** Counting occurrences *)

Abbreviation occurrences := (count_occ Event_eq_dec).

Lemma occurrences_hits (side : Event -> list Asset) record loc e :
  occurrences (flat_map (hit record loc) (side record)) e
  = if decide (record = e)
    then length (filter (fun x => x = loc) (map get_location (side e)))
    else 0%nat.
Proof.
  destruct (decide (record = e)) as [->|Hne].
  - induction (side e) as [|a assets IH]; [done|].
    cbn [flat_map map]. rewrite count_occ_app, IH, filter_cons.
    destruct (decide (get_location a = loc)); [|done].
    by rewrite count_occ_cons_eq.
  - induction (side record) as [|a assets IH]; [done|].
    cbn [flat_map]. rewrite count_occ_app, IH.
    destruct (decide (get_location a = loc)); [|done].
    by rewrite count_occ_cons_neq.
Qed.

Lemma occurrences_indexed side lineage_records loc e :
  occurrences (indexed side lineage_records loc) e
  = (occurrences lineage_records e
     * length (filter (fun x => x = loc) (map get_location (side e))))%nat.
Proof.
  induction lineage_records as [|record rest IH]; [done|].
  unfold indexed. cbn [flat_map]. fold (indexed side rest loc).
  rewrite count_occ_app, IH, occurrences_hits.
  destruct (decide (record = e)) as [->|Hne].
  - rewrite count_occ_cons_eq by done. lia.
  - rewrite count_occ_cons_neq by done. lia.
Qed.

Lemma filter_elem_of_nil (l : list string) :
  filter (fun x => x ∈ @nil string) l = [].
Proof.
  induction l as [|x l IH]; [done|].
  rewrite filter_cons, decide_False; [done|]. apply not_elem_of_nil.
Qed.

Lemma filter_elem_of_cons (t : string) (trace l : list string) :
  t ∉ trace ->
  length (filter (fun x => x ∈ t :: trace) l)
  = (length (filter (fun x => x = t) l)
     + length (filter (fun x => x ∈ trace) l))%nat.
Proof.
  intros Hfresh. induction l as [|x l IH]; [done|].
  rewrite !filter_cons.
  destruct (decide (x = t)) as [->|Hne].
  - rewrite decide_True by by left.
    rewrite (decide_False (P := t ∈ trace)) by done. simpl. by rewrite IH.
  - destruct (decide (x ∈ trace)) as [Hin|Hout].
    + rewrite decide_True by by right. simpl. rewrite IH. lia.
    + rewrite decide_False; [done|].
      by intros [?|?]%elem_of_cons.
Qed.

Lemma occurrences_trace side lineage_records trace e :
  NoDup trace ->
  occurrences (flat_map (indexed side lineage_records) trace) e
  = (occurrences lineage_records e
     * length (filter (fun x => x ∈ trace) (map get_location (side e))))%nat.
Proof.
  induction 1 as [|t trace Hfresh Hnodup IH]; simpl.
  - rewrite filter_elem_of_nil. simpl. lia.
  - rewrite count_occ_app, IH, occurrences_indexed.
    rewrite filter_elem_of_cons by done. lia.
Qed.

(** The returned events of a query, counted: a record of the batch occurs
    once for each of its assets, on the indexed side, whose location was
    visited. *)
Lemma occurrences_traverse index side next depth lineage_records
    fuel location res visited e :
  (forall loc, index_get index loc = indexed side lineage_records loc) ->
  traverse index next depth fuel location = Some (res, visited) ->
  occurrences res e
  = (occurrences lineage_records e
     * count_in visited (map get_location (side e)))%nat.
Proof.
  intros Hindex Hres. unfold traverse in Hres.
  apply loop_trace in Hres as (trace & Hnodup & _ & -> & ->). simpl.
  rewrite (flat_map_ext _ (indexed side lineage_records)) by done.
  rewrite occurrences_trace by done. f_equal.
  unfold count_in. f_equal. apply list_filter_iff.
  intros x. set_solver.
Qed.

Lemma traverse_terminates index next depth location :
  exists fuel res,
    forall fuel', fuel <= fuel' ->
                  traverse index next depth fuel' location = Some res.
Proof. apply loop_terminates. Qed.

Lemma traverse_expanded_once index side next depth lineage_records
    fuel location res visited :
  (forall loc, index_get index loc = indexed side lineage_records loc) ->
  traverse index next depth fuel location = Some (res, visited) ->
  expanded_once (indexed side lineage_records) res visited.
Proof.
  intros Hindex Hres. unfold traverse in Hres.
  apply loop_trace in Hres as (trace & Hnodup & _ & -> & ->).
  exists trace. split; [done|]. split; [by rewrite (left_id_L ∅ (∪))|].
  simpl. by apply flat_map_ext.
Qed.

(** C7: on the cycle of E1 and E2 the upstream query from A with
    depth 5 returns E2 and E1, each once, for any fuel from 2 on; on every
    batch, location and depth both queries return with enough fuel, and
    a returned list comes from expanding each visited location once. *)
Theorem traversal_terminates :
  (forall fuel, 2 <= fuel ->
     get_upstream fuel (new_query [E1; E2]) "A" 5 = Some [E2; E1])
  /\ occurrences [E2; E1] E1 = 1%nat
  /\ occurrences [E2; E1] E2 = 1%nat
  /\ (forall lineage_records location depth,
        (exists fuel res,
            forall fuel', fuel <= fuel' ->
              get_upstream fuel' (new_query lineage_records) location depth
              = Some res)
        /\ (exists fuel res,
               forall fuel', fuel <= fuel' ->
                 get_downstream fuel' (new_query lineage_records) location depth
                 = Some res))
  /\ (forall lineage_records location depth fuel res visited,
        (upstream_run fuel (new_query lineage_records) location depth
         = Some (res, visited) ->
         expanded_once (indexed get_outputs lineage_records) res visited)
        /\ (downstream_run fuel (new_query lineage_records) location depth
            = Some (res, visited) ->
            expanded_once (indexed get_inputs lineage_records) res visited)).
Proof.
  split.
  { intros fuel Hle.
    assert (H2 : exists visited,
               upstream_run 2 (new_query [E1; E2]) "A" 5
               = Some ([E2; E1], visited))
      by (eexists; vm_compute; reflexivity).
    destruct H2 as [visited H2].
    unfold get_upstream, upstream_run, traverse in *.
    by rewrite (loop_fuel_mono _ _ _ 2 fuel _ _ _ _ H2 Hle). }
  do 2 (split; [reflexivity|]).
  split.
  - intros lineage_records location depth. split.
    + destruct (traverse_terminates (by_output (new_query lineage_records))
                  get_inputs depth location) as (fuel & res & Hres).
      exists fuel, res.1. intros fuel' Hle.
      unfold get_upstream, upstream_run. by rewrite Hres.
    + destruct (traverse_terminates (by_input (new_query lineage_records))
                  get_outputs depth location) as (fuel & res & Hres).
      exists fuel, res.1. intros fuel' Hle.
      unfold get_downstream, downstream_run. by rewrite Hres.
  - intros lineage_records location depth fuel res visited. split.
    + apply traverse_expanded_once. intros loc. apply new_query_index.
    + apply traverse_expanded_once. intros loc. apply new_query_index.
Qed.

Lemma traversal_terminates_witness :
  get_upstream 7 (new_query [E1; E2]) "A" 5 = Some [E2; E1].
Proof.
  destruct traversal_terminates as [H _]. apply H. lia.
Defined.

(** Counterexample to C10: D1 has two output assets at the one location
    X; the upstream query from X visits X and Z, and returns D1 twice. *)
Lemma repeated_location_counts_twice :
  exists res visited,
    upstream_run 5 (new_query [D1]) "X" 5 = Some (res, visited)
    /\ occurrences res D1 = 2%nat
    /\ size (visited ∩ list_to_set (output_locations D1)) = 1%nat.
Proof.
  eexists _, _. split; [vm_compute; reflexivity|].
  split; vm_compute; reflexivity.
Qed.

(** C10, amended: an event occurs in the list that [get_upstream] returns
    once for each of its output assets whose location was visited (and in
    the list of [get_downstream] once for each such input asset), times
    the number of times the batch holds it: once per visited location
    when its locations differ, so that S1, with outputs X and Y both
    reached from Y, is returned twice. *)
Theorem occurrences_per_visited_asset (lineage_records : list Event)
    (location : string) (depth : Z) (fuel : nat) (res : list Event)
    (visited : gset string) (e : Event) :
  (upstream_run fuel (new_query lineage_records) location depth
   = Some (res, visited) ->
   occurrences res e
   = (occurrences lineage_records e
      * count_in visited (output_locations e))%nat)
  /\ (downstream_run fuel (new_query lineage_records) location depth
      = Some (res, visited) ->
      occurrences res e
      = (occurrences lineage_records e
         * count_in visited (input_locations e))%nat)
  /\ get_upstream 5 (new_query [S1; S2]) "Y" 5 = Some [S1; S2; S1].
Proof.
  split; [|split; [|reflexivity]].
  - apply occurrences_traverse. intros loc. apply new_query_index.
  - apply occurrences_traverse. intros loc. apply new_query_index.
Qed.

Lemma occurrences_per_visited_asset_witness :
  exists res visited,
    upstream_run 5 (new_query [S1; S2]) "Y" 5 = Some (res, visited)
    /\ occurrences res S1 = 2%nat.
Proof.
  destruct (upstream_run 5 (new_query [S1; S2]) "Y" 5)
    as [[res visited]|] eqn:Hrun; [|by vm_compute in Hrun].
  exists res, visited. split; [reflexivity|].
  destruct (occurrences_per_visited_asset [S1; S2] "Y" 5 5 res visited S1)
    as [Hup _].
  rewrite (Hup Hrun).
  vm_compute in Hrun. injection Hrun as <- <-. by vm_compute.
Defined.

End LineageQueries.

(** ** Schema drift and the verdict *)

Section SchemaDrift.
Import Py Pandas DataContracts ContractSpec DriftSpec.

(** The changes that [detect_schema_changes] returns for distinct labels,
    one by one. *)
Lemma changes_of_elem contract df ch :
  ch ∈ changes_of contract df
  <-> (exists col, col ∈ incoming df /\ (col ∉ declared contract)
                   /\ ch = added_change contract df col)
      \/ (exists col, col ∈ declared contract /\ (col ∉ incoming df)
                      /\ ch = removed_change contract col)
      \/ (exists col, col ∈ incoming df /\ col ∈ declared contract
                      /\ incompatible contract df col
                      /\ ch = type_change contract df col).
Proof.
  unfold changes_of. rewrite !elem_of_app.
  change (map ?f ?l) with (f <$> l). rewrite !list_elem_of_fmap.
  rewrite list_elem_of_omap.
  split.
  - intros [(col & -> & Hin)|[(col & -> & Hin)|(col & Hin & Hch)]].
    + apply elem_of_elements, elem_of_difference in Hin as [? ?].
      left. by exists col.
    + apply elem_of_elements, elem_of_difference in Hin as [? ?].
      right. left. by exists col.
    + apply elem_of_elements, elem_of_intersection in Hin as [? ?].
      right. right. exists col.
      destruct (_types_compatible _ _) eqn:Hc; simpl in Hch; [done|].
      injection Hch as <-. by repeat split.
  - intros [(col & ? & ? & ->)|[(col & ? & ? & ->)|(col & ? & ? & Hc & ->)]].
    + left. exists col. split; [done|].
      by apply elem_of_elements, elem_of_difference.
    + right. left. exists col. split; [done|].
      by apply elem_of_elements, elem_of_difference.
    + right. right. exists col.
      split; [by apply elem_of_elements, elem_of_intersection|].
      unfold incompatible in Hc. by rewrite Hc.
Qed.

Lemma changes_of_nil contract df :
  changes_of contract df = []
  <-> incoming df = declared contract
      /\ forall col, col ∈ declared contract -> ~ incompatible contract df col.
Proof.
  split.
  - intros Hnil.
    assert (Hnone : forall ch, ch ∉ changes_of contract df)
      by (intros ch; rewrite Hnil; apply not_elem_of_nil).
    assert (Hsame : forall col, col ∈ incoming df <-> col ∈ declared contract).
    { intros col. split; intros Hin.
      - destruct (decide (col ∈ declared contract)) as [|Hout]; [done|].
        exfalso. apply (Hnone (added_change contract df col)).
        apply changes_of_elem. left. by exists col.
      - destruct (decide (col ∈ incoming df)) as [|Hout]; [done|].
        exfalso. apply (Hnone (removed_change contract col)).
        apply changes_of_elem. right. left. by exists col. }
    split; [by apply set_eq|].
    intros col Hin Hbad. apply (Hnone (type_change contract df col)).
    apply changes_of_elem. right. right. exists col.
    by rewrite Hsame.
  - intros [Hsame Hcompat].
    destruct (changes_of contract df) as [|ch rest] eqn:Hch; [done|].
    assert (Hin : ch ∈ changes_of contract df) by (rewrite Hch; left).
    apply changes_of_elem in Hin
      as [(col & ? & ? & _)|[(col & ? & ? & _)|(col & ? & ? & ? & _)]].
    + by rewrite Hsame in *.
    + by rewrite Hsame in *.
    + by destruct (Hcompat col).
Qed.

(** The detection returns the empty list exactly when the labels of the
    dataset are distinct and the dataset has the declared columns, no
    more and no fewer, each with a compatible dtype; it raises exactly
    when a label is duplicated. *)
Theorem no_schema_change_iff (contract : DataContract) (df : DataFrame) :
  (detect_schema_changes (new_validator contract) df = Ok []
   <-> NoDup (columns df)
       /\ incoming df = declared contract
       /\ forall col,
            col ∈ declared contract -> ~ incompatible contract df col)
  /\ ((exists e, detect_schema_changes (new_validator contract) df = Raise e)
      <-> ~ NoDup (columns df)).
Proof.
  destruct (detect_schema_changes_cases contract df) as [[Hnd ->]|[Hnd ->]].
  - split.
    + rewrite <- changes_of_nil. split.
      * by intros [= ->].
      * by intros [_ ->].
    + split; [by intros [e ?]|done].
  - split.
    + split; [done|by intros [? _]].
    + split; [done|eauto].
Qed.

Lemma changes_of_breaking contract df :
  existsb is_breaking (changes_of contract df) = true
  <-> (compatibility_mode contract = FORWARD
       /\ exists col, col ∈ incoming df /\ col ∉ declared contract)
      \/ ((compatibility_mode contract = BACKWARD
           \/ compatibility_mode contract = FULL)
          /\ exists col, col ∈ declared contract /\ col ∉ incoming df)
      \/ (exists col, col ∈ incoming df /\ col ∈ declared contract
                      /\ incompatible contract df col).
Proof.
  rewrite existsb_exists. split.
  - intros (ch & Hin & Hb).
    apply list_elem_of_In, changes_of_elem in Hin
      as [(col & ? & ? & ->)|[(col & ? & ? & ->)|(col & ? & ? & ? & ->)]].
    + left. simpl in Hb. apply bool_decide_eq_true in Hb. eauto.
    + right. left. simpl in Hb. apply bool_decide_eq_true in Hb.
      split; [|eauto].
      apply elem_of_cons in Hb as [?|Hb]; [by left|].
      apply elem_of_cons in Hb as [?|Hb]; [by right|].
      by apply not_elem_of_nil in Hb.
    + right. right. eauto.
  - intros [(Hm & col & ? & ?)|[(Hm & col & ? & ?)|(col & ? & ? & ?)]].
    + exists (added_change contract df col). split.
      * apply list_elem_of_In, changes_of_elem. left. by exists col.
      * simpl. by apply bool_decide_eq_true.
    + exists (removed_change contract col). split.
      * apply list_elem_of_In, changes_of_elem. right. left.
        by exists col.
      * simpl. apply bool_decide_eq_true.
        destruct Hm as [-> | ->]; [left|right; left].
    + exists (type_change contract df col). split; [|done].
      apply list_elem_of_In, changes_of_elem. right. right.
      by exists col.
Qed.

(** The detection returns a breaking change exactly when the labels of
    the dataset are distinct and one of three situations holds: the mode
    is FORWARD and the dataset has an undeclared column; the mode is
    BACKWARD or FULL and the dataset lacks a declared column; or, in any
    mode, a common column has an incompatible dtype.  In particular an
    added column is not breaking under FULL. *)
Theorem breaking_change_iff (contract : DataContract) (df : DataFrame) :
  (exists changes,
      detect_schema_changes (new_validator contract) df = Ok changes
      /\ existsb is_breaking changes = true)
  <-> NoDup (columns df)
      /\ ((compatibility_mode contract = FORWARD
           /\ exists col, col ∈ incoming df /\ col ∉ declared contract)
          \/ ((compatibility_mode contract = BACKWARD
               \/ compatibility_mode contract = FULL)
              /\ exists col, col ∈ declared contract /\ col ∉ incoming df)
          \/ (exists col, col ∈ incoming df /\ col ∈ declared contract
                          /\ incompatible contract df col)).
Proof.
  rewrite <- changes_of_breaking.
  destruct (detect_schema_changes_cases contract df) as [[Hnd ->]|[Hnd ->]].
  - split.
    + by intros (changes & [= <-] & ?).
    + intros [_ ?]. eauto.
  - split; [by intros (? & ? & _)|by intros [? _]].
Qed.
End SchemaDrift.

Section Verdict.
Import Py Pandas DataContracts ContractSpec ContractSamples DriftSpec DriftSamples.

Lemma _normalize_dtype_cases s :
  (_normalize_dtype s ∈ ["int64"; "float64"; "string"; "datetime64"; "boolean"])
  \/ (_normalize_dtype s = s
      /\ str_in "int" s = false /\ str_in "float" s = false
      /\ str_in "object" s = false /\ str_in "string" s = false
      /\ str_in "datetime" s = false /\ str_in "bool" s = false).
Proof.
  unfold _normalize_dtype.
  destruct (str_in "int" s); [left; set_solver|].
  destruct (str_in "float" s); [left; set_solver|].
  destruct (str_in "object" s); [left; set_solver|].
  destruct (str_in "string" s); [left; set_solver|].
  destruct (str_in "datetime" s); [left; set_solver|].
  destruct (str_in "bool" s); [left; set_solver|].
  by right.
Qed.

(** Normalising twice is normalising once. *)
Lemma _normalize_dtype_idem s :
  _normalize_dtype (_normalize_dtype s) = _normalize_dtype s.
Proof.
  destruct (_normalize_dtype_cases s) as [Hin|(Hs & H1 & H2 & H3 & H4 & H5 & H6)].
  - repeat (apply elem_of_cons in Hin as [->|Hin]; [reflexivity|]).
    by apply not_elem_of_nil in Hin.
  - rewrite Hs. unfold _normalize_dtype.
    by rewrite H1, H2, H3, H4, H5, H6.
Qed.

Lemma _types_compatible_normal expected s :
  _types_compatible expected (_normalize_dtype s) = true ->
  _normalize_dtype expected = expected.
Proof.
  unfold _types_compatible.
  destruct (String.eqb expected (_normalize_dtype s)) eqn:He.
  { apply String.eqb_eq in He as ->. intros _. apply _normalize_dtype_idem. }
  destruct (String.eqb expected "float64") eqn:Hf.
  { apply String.eqb_eq in Hf as ->. by intros _. }
  destruct (String.eqb expected "string") eqn:Hs.
  { apply String.eqb_eq in Hs as ->. by intros _. }
  by simpl.
Qed.

(** A column declared with a dtype that is not in normalised form ("int32",
    "object", "str") is reported as a breaking type change for every
    dataset with distinct labels that has the column, whatever the dtype
    there and whatever the compatibility mode; when the value checks
    return, the dataset is quarantined, and when they raise, the validation
    raises the same. *)
Theorem unnormalised_dtype_always_breaks (contract : DataContract)
    (df : DataFrame) (col : string) :
  col ∈ declared contract ->
  col ∈ incoming df ->
  NoDup (columns df) ->
  _normalize_dtype (declared_dtype (new_validator contract) col)
  <> declared_dtype (new_validator contract) col ->
  (exists changes,
      detect_schema_changes (new_validator contract) df = Ok changes
      /\ type_change contract df col ∈ changes)
  /\ (forall vv,
        validate_values (new_validator contract) df = Ok vv ->
        exists r,
          validate_against_contract df contract = Ok r
          /\ has_breaking_changes r = true
          /\ action r = "quarantine"
          /\ is_valid r = false)
  /\ (forall e,
        validate_values (new_validator contract) df = Raise e ->
        validate_against_contract df contract = Raise e).
Proof.
  intros Hdecl Hin Hnd Hraw.
  pose proof (detect_schema_changes_distinct contract df Hnd) as Hdet.
  assert (Hch : type_change contract df col ∈ changes_of contract df).
  { apply changes_of_elem. right. right. exists col.
    repeat split; try done. unfold incompatible.
    destruct (_types_compatible _ _) eqn:Hc; [|done].
    by apply _types_compatible_normal in Hc. }
  split; [by exists (changes_of contract df)|]. split.
  - intros vv Hvv.
    rewrite (validate_against_contract_ok df contract _ vv Hdet Hvv).
    assert (Hany : existsb is_breaking (changes_of contract df) = true).
    { apply existsb_exists. exists (type_change contract df col).
      split; [by apply list_elem_of_In|done]. }
    eexists. split; [reflexivity|]. simpl.
    unfold decision_policy. by rewrite Hany.
  - intros e He. by eapply validate_against_contract_values_raise.
Qed.

Lemma unnormalised_dtype_always_breaks_witness :
  exists r,
    validate_against_contract narrow_dataset narrow_contract = Ok r
    /\ action r = "quarantine".
Proof.
  destruct (unnormalised_dtype_always_breaks narrow_contract narrow_dataset "AGE")
    as (_ & H & _).
  - vm_compute. reflexivity.
  - vm_compute. reflexivity.
  - compute_done.
  - vm_compute. discriminate.
  - edestruct H as (r & Hr & _ & Ha & _); [vm_compute; reflexivity|].
    exists r. by split.
Defined.

(** The verdict is coherent: the action is one of the three, the result
    is valid exactly when the action is not "quarantine", "accept" means
    that no schema change was detected and no value check failed, and a
    quarantine without a breaking change means that more than one record
    in twenty failed. *)
Theorem verdict_coherent (df : DataFrame) (contract : DataContract)
    (r : ContractValidationResult) :
  validate_against_contract df contract = Ok r ->
  (action r = "accept" \/ action r = "alert" \/ action r = "quarantine")
  /\ (is_valid r = false <-> action r = "quarantine")
  /\ (action r = "accept"
      <-> schema_changes r = [] /\ failed_records r = 0%nat)
  /\ (has_breaking_changes r = false ->
      (action r = "quarantine"
       <-> (total_records r < 20 * failed_records r)%nat)).
Proof.
  intros Hr.
  destruct (detect_schema_changes (new_validator contract) df)
    as [changes|e] eqn:Hch;
    [|by rewrite (validate_against_contract_detect_raises _ _ _ Hch) in Hr].
  destruct (validate_values (new_validator contract) df) as [vv|e] eqn:Hvv;
    [|by rewrite (validate_against_contract_values_raise _ _ _ _ Hch Hvv)
        in Hr].
  pose proof (failed_needs_rows _ _ _ Hvv) as Hrows.
  rewrite (validate_against_contract_ok df contract changes vv) in Hr by done.
  injection Hr as <-. simpl.
  unfold decision_policy.
  destruct (existsb is_breaking changes) eqn:Hb; simpl.
  { split; [auto|]. split; [done|]. split; [|done].
    split; [done|]. intros [Hnil _]. by rewrite Hnil in Hb. }
  destruct (exceeds_threshold (sum_failed vv) (len df)) eqn:Ht; simpl.
  { assert (0 < len df)%nat.
    { destruct (sum_failed vv) eqn:Hf; [by rewrite exceeds_threshold_0 in Ht|].
      apply Hrows. lia. }
    apply exceeds_threshold_iff in Ht; [|done].
    split; [auto|]. split; [done|]. split; [|done].
    split; [done|]. intros [_ Hz]. lia. }
  assert (Hle : ~ (len df < 20 * sum_failed vv)%nat).
  { intros Hlt. assert (0 < len df)%nat by (apply Hrows; lia).
    apply exceeds_threshold_iff in Hlt; [|done]. congruence. }
  case_bool_decide as Hf; simpl.
  { split; [auto|]. split; [done|]. split.
    - split; [done|]. intros [_ Hz]. lia.
    - intros _. split; [done|]. intros Hlt. by destruct Hle. }
  assert (sum_failed vv = 0%nat) as Hz by lia.
  destruct changes as [|ch rest]; simpl.
  - split; [auto|]. split; [done|]. split; [done|].
    intros _. split; [done|]. intros Hlt. by destruct Hle.
  - split; [auto|]. split; [done|]. split.
    + split; [done|]. by intros [? _].
    + intros _. split; [done|]. intros Hlt. by destruct Hle.
Qed.

Lemma verdict_coherent_witness :
  exists r,
    validate_against_contract (dm_dataset 95 5) dm_contract = Ok r
    /\ action r = "alert" /\ is_valid r = true.
Proof.
  destruct (validate_against_contract (dm_dataset 95 5) dm_contract)
    as [r|e] eqn:Hr; [|by vm_compute in Hr].
  destruct (verdict_coherent _ _ r Hr) as (_ & Hv & _).
  exists r. split; [reflexivity|].
  assert (Ha : action r = "alert")
    by (vm_compute in Hr; injection Hr as <-; reflexivity).
  split; [done|].
  apply not_false_iff_true. intros E.
  apply Hv in E. rewrite Ha in E. discriminate E.
Defined.
End Verdict.

(** ** The value checks *)

Section ValueChecks.
Import Py Pandas DataContracts ContractSpec ContractSamples DriftSpec
  DriftSamples ContractTactics.

Lemma count_true_le mask : (count_true mask <= length mask)%nat.
Proof. unfold count_true. apply length_filter. Qed.

Lemma duplicated_from_length seen l :
  length (duplicated_from seen l) = length l.
Proof.
  revert seen. induction l as [|c l IH]; intros seen; simpl; [done|].
  by rewrite IH.
Qed.

Lemma duplicated_rows_from_length seen rows :
  length (duplicated_rows_from seen rows) = length rows.
Proof.
  revert seen. induction rows as [|r rows IH]; intros seen; simpl; [done|].
  by rewrite IH.
Qed.

Ltac sublist_by_heads :=
  solve [repeat first
           [ apply sublist_nil | apply sublist_skip | apply sublist_cons ]].

(** A count of a mask is at most the number of rows. *)
Ltac count_bound :=
  etrans; [apply count_true_le|];
  unfold duplicated, duplicated_rows;
  rewrite ?length_map, ?duplicated_from_length, ?duplicated_rows_from_length;
  lia.

Lemma validate_column_ok col_contract col_data r :
  validate_column col_contract col_data = Ok r ->
  column_result_ok (item_length col_data) (name col_contract) r.
Proof.
  intros Hr.
  destruct col_data as [dtype data|dtypes rows]; column_steps Hr;
    try discriminate Hr;
    repeat match goal with
      | E : compare_series _ _ _ _ = Ok _ |- _ =>
          apply compare_series_length in E
      end;
    injection Hr as <-;
    (split; [reflexivity|]);
    (split; [simpl; lia|]);
    (split; [simpl;
             repeat (apply Forall_cons_2;
                     [split; [reflexivity|count_bound]|]);
             apply Forall_nil_2
            | simpl; unfold check_order; sublist_by_heads]).
Qed.

Lemma column_result_bound n label r :
  column_result_ok n label r -> (failed_count r <= 5 * n)%nat.
Proof.
  intros (_ & -> & Hall & Hsub).
  apply sublist_length in Hsub. rewrite length_map in Hsub.
  simpl in Hsub.
  assert (sum_list (map check_failed_count (checks r))
          <= n * length (checks r))%nat; [|nia].
  clear Hsub. induction Hall as [|k ks [_ Hk] _ IH]; simpl; lia.
Qed.

Lemma validate_columns_ok df cols results vv :
  (forall k r, results !! k = Some r -> column_result_ok (len df) k r) ->
  validate_columns df cols results = Ok vv ->
  (forall k r, vv !! k = Some r -> column_result_ok (len df) k r)
  /\ dom vv = dom results
              ∪ (list_to_set (map name cols) ∩ incoming df).
Proof.
  revert results. induction cols as [|c cols IH]; intros results Hres; simpl.
  - intros [= <-]. split; [done|]. set_solver.
  - destruct (has_column df (name c)) eqn:Hc; simpl.
    + destruct (getitem df (name c)) as [col_data|e] eqn:Hit; simpl; [|done].
      destruct (validate_column c col_data) as [r|e] eqn:Hr; simpl; [|done].
      intros Hvv. apply IH in Hvv as [Hok Hdom].
      * split; [done|]. rewrite Hdom, dom_insert_L.
        apply bool_decide_eq_true in Hc.
        unfold incoming. set_solver.
      * intros k r' Hk. destruct (decide (k = name c)) as [->|Hne].
        -- rewrite lookup_insert_eq in Hk. injection Hk as <-.
           apply validate_column_ok in Hr.
           by rewrite (getitem_length _ _ _ Hit) in Hr.
        -- rewrite lookup_insert_ne in Hk by done. by apply Hres.
    + intros Hvv. apply IH in Hvv as [Hok Hdom]; [|done].
      split; [done|]. rewrite Hdom.
      apply bool_decide_eq_false in Hc. unfold incoming. set_solver.
Qed.

Lemma sum_failed_bound (m : gmap string ColumnResult) (b : nat) :
  map_Forall (fun _ r => (failed_count r <= b)%nat) m ->
  (sum_failed m <= b * size m)%nat.
Proof.
  unfold sum_failed.
  induction m as [|k v m Hk Hfold IH] using map_first_key_ind.
  - rewrite map_fold_empty. lia.
  - intros Hall. rewrite map_fold_insert_first_key by done.
    apply map_Forall_insert in Hall as [Hv Hall]; [|done].
    rewrite map_size_insert_None by done. specialize (IH Hall). lia.
Qed.

(** The result of [validate_values] has one entry for each declared column
    that the dataset has, and none for a declared column that is missing.
    In each entry the column's failed count is the sum over its checks, a
    check has passed exactly when it counted no record, the checks are in
    the fixed order not_null, unique, allowed_values, min_value, max_value,
    and no check counts more than the rows; so a column counts at most five
    times the rows.  The sum over the columns may exceed the number of
    rows: two records without identifier count three times against an
    identifier that must be there and must not repeat. *)
Theorem value_checks_structure (contract : DataContract) (df : DataFrame)
    (vv : gmap string ColumnResult) :
  validate_values (new_validator contract) df = Ok vv ->
  dom vv = declared contract ∩ incoming df
  /\ (forall k r, vv !! k = Some r ->
                  column_result_ok (len df) k r
                  /\ (failed_count r <= 5 * len df)%nat)
  /\ (sum_failed vv <= 5 * len df * size vv)%nat
  /\ exists vv',
       validate_values (new_validator id_contract) ids_missing = Ok vv'
       /\ len ids_missing = 2%nat
       /\ sum_failed vv' = 3%nat.
Proof.
  intros Hvv. unfold validate_values in Hvv.
  apply validate_columns_ok in Hvv as [Hok Hdom];
    [|by intros k r ?%lookup_empty_Some].
  split; [rewrite Hdom, dom_empty_L; unfold declared; set_solver|].
  split; [|split].
  - intros k r Hk. split; [by apply Hok|].
    eapply column_result_bound. by apply Hok.
  - apply sum_failed_bound. intros k r Hk.
    eapply column_result_bound. by apply Hok.
  - eexists. split; [vm_compute; reflexivity|]. split; reflexivity.
Qed.

Lemma value_checks_structure_witness :
  exists vv,
    validate_values (new_validator dm_contract) (dm_dataset 1 3) = Ok vv
    /\ dom vv = {["AGE"; "SEX"; "RACE"]}
    /\ (sum_failed vv <= 60)%nat.
Proof.
  destruct (validate_values (new_validator dm_contract) (dm_dataset 1 3))
    as [vv|e] eqn:Hvv; [|by vm_compute in Hvv].
  destruct (value_checks_structure _ _ vv Hvv) as (Hdom & _ & Hsum & _).
  exists vv. split; [reflexivity|]. split.
  - rewrite Hdom. by vm_compute.
  - etrans; [exact Hsum|].
    vm_compute in Hvv. injection Hvv as <-. by vm_compute.
Defined.
End ValueChecks.

(** ** Saving and loading a contract *)

Section ContractRoundTrip.
Import Py Pandas DataContracts ContractSpec ContractSamples ContractJson.

Lemma CompatibilityMode_value_of mode :
  CompatibilityMode_of_value (CompatibilityMode_value mode) = Ok mode.
Proof. by destruct mode. Qed.

Lemma column_round_trip c :
  ColumnContract_of_kwargs (ColumnContract_to_dict c)
  = Ok (without_empty_pattern c).
Proof.
  unfold ColumnContract_of_kwargs, ColumnContract_to_dict, without_empty_pattern.
  simpl. f_equal.
  destruct c as [n d nu un al mi ma pa de]; simpl.
  destruct al, mi, ma, pa as [[|a p]|]; reflexivity.
Qed.

Lemma without_empty_pattern_id c :
  without_empty_pattern c = c <-> pattern c <> Some "".
Proof.
  destruct c as [n d nu un al mi ma pa de].
  unfold without_empty_pattern. simpl. split.
  - intros [= Hp] ->. discriminate Hp.
  - intros Hp. f_equal. by destruct pa as [[|a p]|].
Qed.

Lemma columns_round_trip cols :
  mapM ColumnContract_of_kwargs (map ColumnContract_to_dict cols)
  = Ok (map without_empty_pattern cols).
Proof.
  induction cols as [|c cols IH]; [done|].
  cbn [map mapM]. rewrite column_round_trip. cbn [bind].
  by rewrite IH.
Qed.

Lemma columns_unchanged_iff cols :
  map without_empty_pattern cols = cols
  <-> Forall (fun col => pattern col <> Some "") cols.
Proof.
  induction cols as [|col cols IH]; simpl.
  - split; [constructor|done].
  - rewrite Forall_cons, <- IH, <- without_empty_pattern_id. split.
    + by intros [= ? ?].
    + by intros [-> ->].
Qed.

Lemma load_json_to_dict (c : DataContract) :
  load_json (to_dict c)
  = Ok (with_columns c (map without_empty_pattern (contract_columns c))).
Proof.
  unfold load_json, to_dict. simpl. rewrite columns_round_trip. simpl.
  by rewrite CompatibilityMode_value_of.
Qed.

(** On a document that has every key, [load] takes no default. *)
Lemma load_document_of created updated (data : JsonDocument) :
  load created updated (document_of data) = load_json data.
Proof.
  unfold load, load_json, document_of. simpl.
  destruct (mapM ColumnContract_of_kwargs (json_columns data)); simpl; [|done].
  by destruct (CompatibilityMode_of_value (json_compatibility_mode data)).
Qed.

Lemma round_trip_exact (c : DataContract) :
  load_json (to_dict c) = Ok c
  <-> Forall (fun col => pattern col <> Some "") (contract_columns c).
Proof.
  rewrite load_json_to_dict, <- columns_unchanged_iff. split.
  - intros [= Hc]. by rewrite <- Hc at 2.
  - intros Hcols. rewrite Hcols. by destruct c.
Qed.

(** Loading what [to_dict] wrote always succeeds and gives the contract
    back, except that a column pattern that is the empty string comes back
    as no pattern; so the contract itself comes back exactly when no column
    has the empty pattern, and a second save writes the same document. *)
Theorem save_load_round_trip (c : DataContract) :
  load_json (to_dict c)
  = Ok (with_columns c (map without_empty_pattern (contract_columns c)))
  /\ (load_json (to_dict c) = Ok c
      <-> Forall (fun col => pattern col <> Some "") (contract_columns c))
  /\ (forall c', load_json (to_dict c) = Ok c' -> to_dict c' = to_dict c).
Proof.
  split; [apply load_json_to_dict|]. split; [apply round_trip_exact|].
  rewrite load_json_to_dict.
  intros c' [= <-]. unfold to_dict. simpl. f_equal.
  rewrite map_map. apply map_ext. intros col.
  destruct col as [n d nu un al mi ma pa de].
  unfold ColumnContract_to_dict, without_empty_pattern. simpl.
  by destruct pa as [[|a p]|].
Qed.

Lemma save_load_round_trip_witness :
  load_json (to_dict dm_contract) = Ok dm_contract.
Proof.
  apply (save_load_round_trip dm_contract).
  repeat (apply Forall_cons_2; [discriminate|]). apply Forall_nil_2.
Defined.
End ContractRoundTrip.

Section Prebuilt.
Import Py Pandas DataContracts ContractSpec ContractJson PrebuiltContracts.

(** The two contracts that the module ships are well formed: the column
    names differ, the primary key and the foreign key columns are
    declared, every declared dtype is in normalised form, and saving and
    loading gives the contract back. *)
Theorem prebuilt_contracts_well_formed (created updated : string) :
  let dm := create_dm_contract created updated in
  let ae := create_ae_contract created updated in
  (NoDup (map name (contract_columns dm))
   /\ primary_key_declared dm /\ foreign_keys_declared dm
   /\ dtypes_normalised dm /\ load_json (to_dict dm) = Ok dm)
  /\ (NoDup (map name (contract_columns ae))
      /\ primary_key_declared ae /\ foreign_keys_declared ae
      /\ dtypes_normalised ae /\ load_json (to_dict ae) = Ok ae).
Proof.
  intros dm ae. split.
  - split; [compute_done|].
    split; [compute_done|].
    split; [compute_done|].
    split; [compute_done|].
    apply round_trip_exact. compute_done.
  - split; [compute_done|].
    split; [compute_done|].
    split; [compute_done|].
    split; [compute_done|].
    apply round_trip_exact. compute_done.
Qed.
End Prebuilt.

(** ** Runs of the validation engine *)

Section ValidationRuns.
Import Py Pandas Validators ValidatorSpec ValidatorSamples Runner RunnerSamples.

Lemma overall_status_failed results :
  overall_status results = FAILED
  <-> existsb (failed_with ERROR) results = true.
Proof.
  unfold overall_status.
  destruct (existsb (failed_with ERROR) results); [done|].
  by destruct (existsb (failed_with WARNING) results).
Qed.

(** A rule whose predicate raises fails the whole run, whatever severity
    it was registered with: its result is an ERROR result. *)
Theorem raising_rule_fails_run (self : ClinicalDataValidator) (df : DataFrame)
    (id_column : string) (rule : Rule) (e : exn) :
  rule ∈ rules self ->
  func rule df = Raise e ->
  status (report_of self df id_column) = FAILED.
Proof.
  intros Hin Hraise. rewrite validate_status, validate_results.
  apply overall_status_failed, existsb_exists.
  exists (run_rule rule df id_column (len df)). split.
  - apply in_map_iff. exists rule. split; [done|by apply list_elem_of_In].
  - by rewrite (run_rule_raise _ _ _ _ e Hraise).
Qed.

Lemma raising_rule_fails_run_witness :
  status (report_of dm_validator_twice dm_without_arm "USUBJID") = FAILED.
Proof.
  apply (raising_rule_fails_run dm_validator_twice dm_without_arm "USUBJID"
           (Build_Rule "DM_002" "ARM should be recorded"
                       (check_not_null "ARM") WARNING)
           (Exn "KeyError" "'ARM'")).
  - right. left.
  - reflexivity.
Defined.

Lemma existsb_failed_count s results :
  existsb (failed_with s) results = true
  <-> (0 < length (filter (fun r => passed r = false /\ severity r = s)
                          results))%nat.
Proof.
  induction results as [|r results IH]; simpl; [split; [done|lia]|].
  rewrite filter_cons, orb_true_iff, IH. unfold failed_with.
  destruct (decide (passed r = false /\ severity r = s)) as [[Hp Hs]|Hn].
  - simpl. rewrite Hp, Hs. simpl. rewrite bool_decide_eq_true_2 by done.
    split; [lia|by left].
  - split; [|by right]. intros [Hr|?]; [|done]. exfalso. apply Hn.
    apply andb_prop in Hr as [Hp Hs].
    apply negb_true_iff in Hp. by apply bool_decide_eq_true in Hs.
Qed.

Lemma passed_split (results : list ValidationResult) :
  (length (filter (fun r => passed r = true) results)
   + length (filter (fun r => passed r = false) results)
   = length results)%nat.
Proof.
  induction results as [|r results IH]; [done|].
  rewrite !filter_cons. destruct (passed r); simpl in *; lia.
Qed.

Lemma failed_split (results : list ValidationResult) :
  (length (filter (fun r => passed r = false /\ severity r = ERROR) results)
   + length (filter (fun r => passed r = false /\ severity r = WARNING) results)
   + length (filter (fun r => passed r = false /\ severity r = INFO) results)
   = length (filter (fun r => passed r = false) results))%nat.
Proof.
  induction results as [|r results IH]; [done|].
  rewrite !filter_cons.
  destruct (passed r) eqn:Hp, (severity r) eqn:Hs;
    repeat case_decide; simpl in *; try lia; naive_solver.
Qed.

(** The summary of the serialised report adds up: passed and failed
    checks make up the checks, one per registered rule; failed checks are
    errors, warnings and failed informational checks; and the status is
    FAILED exactly when the summary has an error, PASSED_WITH_WARNINGS
    exactly when it has a warning and no error, PASSED otherwise, also
    when checks have failed. *)
Theorem summary_adds_up (self : ClinicalDataValidator) (df : DataFrame)
    (id_column : string) :
  let report := report_of self df id_column in
  let s := summary report in
  total_checks s = length (rules self)
  /\ (summary_passed s + summary_failed s = total_checks s)%nat
  /\ (errors s + warnings s <= summary_failed s)%nat
  /\ (status report = FAILED <-> (0 < errors s)%nat)
  /\ (status report = PASSED_WITH_WARNINGS
      <-> errors s = 0%nat /\ (0 < warnings s)%nat)
  /\ (status report = PASSED <-> errors s = 0%nat /\ warnings s = 0%nat).
Proof.
  intros report s. subst s report. unfold summary.
  cbn [total_checks summary_passed summary_failed errors warnings].
  split; [by rewrite validate_results, length_map|].
  split; [apply passed_split|].
  split.
  { pose proof (failed_split (report_results (report_of self df id_column))).
    lia. }
  rewrite validate_status.
  generalize (report_results (report_of self df id_column)). intros results.
  pose proof (existsb_failed_count ERROR results) as He.
  pose proof (existsb_failed_count WARNING results) as Hw.
  unfold overall_status.
  destruct (existsb (failed_with ERROR) results);
    [|destruct (existsb (failed_with WARNING) results)].
  - assert (0 < length (filter (fun r => passed r = false /\ severity r = ERROR)
                               results))%nat by by apply He.
    split; [done|]. split; split; try done; lia.
  - assert (~ (0 < length (filter (fun r => passed r = false /\ severity r = ERROR)
                                  results))%nat) by (intros ?%He; done).
    assert (0 < length (filter (fun r => passed r = false /\ severity r = WARNING)
                               results))%nat by by apply Hw.
    split; [split; [done|lia]|]. split; split; try done; lia.
  - assert (~ (0 < length (filter (fun r => passed r = false /\ severity r = ERROR)
                                  results))%nat) by (intros ?%He; done).
    assert (~ (0 < length (filter (fun r => passed r = false /\ severity r = WARNING)
                                  results))%nat) by (intros ?%Hw; done).
    split; [split; [done|lia]|]. split; split; try done; lia.
Qed.

Lemma overall_status_snoc results r :
  (status_rank (overall_status results)
   <= status_rank (overall_status (results ++ [r])))%nat.
Proof.
  unfold overall_status. rewrite !existsb_app. simpl. rewrite !orb_false_r.
  destruct (existsb (failed_with ERROR) results); simpl; [done|].
  destruct (existsb (failed_with WARNING) results); simpl.
  - destruct (failed_with ERROR r); simpl; lia.
  - destruct (failed_with ERROR r), (failed_with WARNING r); simpl; lia.
Qed.

(** Registering one more rule leaves the results of the earlier rules as
    they were and appends the result of the new rule; the status of the
    run can only stay or get worse. *)
Theorem add_rule_extends_report (self : ClinicalDataValidator)
    (name' description : string)
    (validation_func : DataFrame -> outcome (bool * DataFrame))
    (severity : ValidationSeverity) (df : DataFrame) (id_column : string) :
  let self' := add_rule self name' description validation_func severity in
  let rule := Build_Rule name' description validation_func severity in
  report_results (report_of self' df id_column)
  = (report_results (report_of self df id_column)
     ++ [run_rule rule df id_column (len df)])%list
  /\ (status_rank (status (report_of self df id_column))
      <= status_rank (status (report_of self' df id_column)))%nat.
Proof.
  intros self' rule. subst self'.
  assert (Hres : report_results
                   (report_of (add_rule self name' description validation_func
                                        severity) df id_column)
                 = (report_results (report_of self df id_column)
                    ++ [run_rule rule df id_column (len df)])%list).
  { rewrite !validate_results. simpl. by rewrite map_app. }
  split; [done|].
  rewrite !validate_status, Hres. apply overall_status_snoc.
Qed.

Lemma get_item_validators checks domain :
  get_item domain (validators checks)
  = if bool_decide (domain = "DM") then Some (create_dm_validator checks)
    else if bool_decide (domain = "AE") then Some (create_ae_validator checks)
    else if bool_decide (domain = "VS") then Some (create_vs_validator checks)
    else if bool_decide (domain = "LB") then Some (create_lb_validator checks)
    else None.
Proof.
  unfold validators, get_item.
  case_bool_decide as H1; [subst; reflexivity|].
  rewrite (proj2 (String.eqb_neq _ _) H1).
  case_bool_decide as H2; [subst; reflexivity|].
  rewrite (proj2 (String.eqb_neq _ _) H2).
  case_bool_decide as H3; [subst; reflexivity|].
  rewrite (proj2 (String.eqb_neq _ _) H3).
  case_bool_decide as H4; [subst; reflexivity|].
  by rewrite (proj2 (String.eqb_neq _ _) H4).
Qed.

(** [validate_clinical_data] raises a ValueError exactly for a domain
    other than DM, AE, VS and LB, before any check runs.  For these four
    it returns a report, whatever the checks do: the report carries the
    domain and the given source path, and its results are those of the
    rules that the factory of the domain registers, one per rule and in
    their order, so that the names of the results are the names of these
    rules: six for DM, five for AE, four for VS and for LB, each with the
    domain as prefix and no name twice. *)
Theorem runner_dispatch (checks : Checks) (df : DataFrame)
    (domain source_path : string) :
  (domain ∉ ["DM"; "AE"; "VS"; "LB"] ->
   exists msg,
     validate_clinical_data checks df domain source_path
     = Raise (Exn "ValueError" msg))
  /\ (domain ∈ ["DM"; "AE"; "VS"; "LB"] ->
      exists validator report,
        get_item domain (validators checks) = Some validator
        /\ validate_clinical_data checks df domain source_path = Ok report
        /\ report_domain report = domain
        /\ Validators.source_path report = source_path
        /\ total_records report = len df
        /\ report_results report
           = map (fun rule => run_rule rule df "USUBJID" (len df))
                 (rules validator)
        /\ map name (rules validator) = shipped_rule_names domain
        /\ map rule_name (report_results report) = shipped_rule_names domain
        /\ NoDup (map rule_name (report_results report))
        /\ Forall (fun n => starts_with (domain ++ "_") n = true)
                  (map rule_name (report_results report))).
Proof.
  unfold validate_clinical_data. rewrite get_item_validators. split.
  - intros Hout.
    repeat (case_bool_decide; [subst; exfalso; apply Hout; set_solver|]).
    eauto.
  - intros Hin.
    assert (Hname : forall rule,
      rule_name (run_rule rule df "USUBJID" (len df)) = name rule)
      by (intros rule; apply run_rule_checked).
    repeat (apply elem_of_cons in Hin as [->|Hin];
      [simpl; eexists _, _; split; [reflexivity|];
       split; [reflexivity|]; simpl;
       do 5 (split; [reflexivity|]);
       rewrite !Hname; cbn [name];
       split; [reflexivity|];
       split; [compute_done|];
       repeat (apply Forall_cons_2; [reflexivity|]); apply Forall_nil_2
      |]).
    by apply not_elem_of_nil in Hin.
Qed.

Lemma runner_dispatch_witness :
  exists report,
    validate_clinical_data sample_checks dm_without_arm "VS" "s3://bronze/vs/"
    = Ok report
    /\ report_domain report = "VS"
    /\ map rule_name (report_results report)
       = ["VS_001"; "VS_002"; "VS_003"; "VS_004"].
Proof.
  destruct (runner_dispatch sample_checks dm_without_arm "VS"
              "s3://bronze/vs/") as [_ H].
  destruct H as (validator & report & _ & Hr & Hd & _ & _ & _ & _ & Hn & _).
  - right. right. left.
  - by exists report.
Defined.
End ValidationRuns.

(** ** The lineage tracker *)

Section TrackerRuns.
Import Tracker TrackerSamples.

Lemma total_count_snoc assets a :
  total_count (assets ++ [a])%list = add_count (total_count assets) a.
Proof.
  unfold total_count, add_count.
  induction assets as [|b assets IH]; simpl.
  - destruct (record_count a) as [n|]; simpl; [|done].
    destruct (n =? 0)%Z eqn:Hn; [apply Z.eqb_eq in Hn|]; lia.
  - rewrite IH. destruct (record_count a) as [n|]; simpl; [|done].
    destruct (n =? 0)%Z; lia.
Qed.

(** The state of a tracker that was created on the store [st0]. *)
Record tracks (st0 st : store) (self : LineageTracker) (calls : list Call)
  : Prop := {
  tracks_length : length st = (length st0 + 2)%nat;
  tracks_inputs_ref : input_assets self = length st0;
  tracks_outputs_ref : output_assets self = S (length st0);
  tracks_old : forall r, (r < length st0)%nat -> st !! r = st0 !! r;
  tracks_inputs : deref st (input_assets self) = added_inputs calls;
  tracks_outputs : deref st (output_assets self) = added_outputs calls;
  tracks_in : records_in self = total_count (added_inputs calls);
  tracks_out : records_out self = total_count (added_outputs calls);
  tracks_logic : transformation_logic self = last (descriptions calls);
  tracks_parameters :
    parameters self = default [] (last (given_parameters calls));
  tracks_status : validation_status self = fst <$> last (statuses calls);
  tracks_rejected :
    records_rejected self = default 0%Z (snd <$> last (statuses calls));
  tracks_execution : execution_id self = last (execution_ids calls)
}.

Lemma tracks_new st0 uuid now triggered_by event_type :
  let '(st, self) := new_tracker st0 uuid now triggered_by event_type in
  tracks st0 st self [].
Proof.
  simpl. split; simpl; try done.
  - rewrite length_app. simpl. lia.
  - intros r Hr. by rewrite lookup_app_l.
  - unfold deref. rewrite lookup_app_r by lia.
    by rewrite Nat.sub_diag.
  - unfold deref. rewrite lookup_app_r by lia.
    by replace (S (length st0) - length st0)%nat with 1%nat by lia.
Qed.

Lemma omap_snoc {A B} (f : A -> option B) (l : list A) x :
  omap f (l ++ [x])%list
  = (omap f l ++ match f x with Some y => [y] | None => [] end)%list.
Proof. rewrite omap_app. simpl. by destruct (f x). Qed.

Ltac unfold_calls :=
  unfold added_inputs, added_outputs, descriptions, given_parameters,
    statuses, execution_ids in *.

Lemma tracks_call st0 st self calls c :
  tracks st0 st self calls ->
  let '(st', self') := call (st, self) c in
  tracks st0 st' self' (calls ++ [c])%list.
Proof.
  intros [Hlen Hin Hout Hold Hins Houts Hrin Hrout Hlog Hpar Hsta Hrej Hexe].
  unfold_calls.
  destruct c as [a|a|d p|s n|i]; simpl.
  - split; simpl; unfold_calls; rewrite ?omap_snoc; simpl;
      rewrite ?app_nil_r; try done.
    + by rewrite length_insert.
    + intros r Hr. rewrite list_lookup_insert_ne by lia. by apply Hold.
    + unfold deref in *. rewrite list_lookup_insert_eq by lia. simpl.
      by rewrite Hins.
    + unfold deref in *. by rewrite list_lookup_insert_ne by lia.
    + by rewrite total_count_snoc, Hrin.
  - split; simpl; unfold_calls; rewrite ?omap_snoc; simpl;
      rewrite ?app_nil_r; try done.
    + by rewrite length_insert.
    + intros r Hr. rewrite list_lookup_insert_ne by lia. by apply Hold.
    + unfold deref in *. by rewrite list_lookup_insert_ne by lia.
    + unfold deref in *. rewrite list_lookup_insert_eq by lia. simpl.
      by rewrite Houts.
    + by rewrite total_count_snoc, Hrout.
  - split; simpl; unfold_calls; rewrite ?omap_snoc; simpl;
      rewrite ?app_nil_r; try done.
    + by rewrite last_snoc.
    + destruct p as [[|p ps]|]; rewrite ?app_nil_r, ?last_snoc; done.
  - split; simpl; unfold_calls; rewrite ?omap_snoc; simpl;
      rewrite ?app_nil_r; try done.
    + by rewrite last_snoc.
    + by rewrite last_snoc.
  - split; simpl; unfold_calls; rewrite ?omap_snoc; simpl;
      rewrite ?app_nil_r; try done.
    by rewrite last_snoc.
Qed.

Lemma tracks_after st0 uuid now triggered_by event_type calls :
  let '(st, self) :=
    tracker_after st0 uuid now triggered_by event_type calls in
  tracks st0 st self calls.
Proof.
  unfold tracker_after.
  induction calls as [|c calls IH] using rev_ind.
  - apply tracks_new.
  - rewrite foldl_app. simpl.
    destruct (foldl call _ calls) as [st self].
    by apply tracks_call.
Qed.

(** Whatever calls an open tracker receives, in whatever order, the event
    that it then builds carries: the added input and output assets in the
    order of the calls; as [records_in] and [records_out] the sums of their
    record counts, an asset without a count adding nothing; the description
    of the last [set_transformation] call, with the parameters of the last
    such call that gave any, so that a later call without parameters keeps
    the parameters of an earlier one; the status and the rejected count of
    the last [set_validation_status] call; and the last execution
    identifier.  No list object that existed before the tracker is changed. *)
Theorem built_event_records_calls (st0 : store) (uuid : string) (t0 now : Z)
    (triggered_by : string) (event_type : LineageEventType)
    (calls : list Call) :
  let '(st, self) := tracker_after st0 uuid t0 triggered_by event_type calls in
  let ev := build_event self now in
  deref st (ev_input_assets ev) = added_inputs calls
  /\ deref st (ev_output_assets ev) = added_outputs calls
  /\ ev_records_in ev = total_count (added_inputs calls)
  /\ ev_records_out ev = total_count (added_outputs calls)
  /\ ev_transformation_logic ev = last (descriptions calls)
  /\ ev_parameters ev = default [] (last (given_parameters calls))
  /\ ev_validation_status ev = fst <$> last (statuses calls)
  /\ ev_records_rejected ev = default 0%Z (snd <$> last (statuses calls))
  /\ ev_execution_id ev = last (execution_ids calls)
  /\ ev_event_id ev = uuid /\ ev_timestamp ev = t0
  /\ (forall r, (r < length st0)%nat -> st !! r = st0 !! r).
Proof.
  assert (Hid : forall state,
    event_id (foldl call state calls).2 = event_id state.2
    /\ start_time (foldl call state calls).2 = start_time state.2).
  { induction calls as [|c calls IH]; intros state; [done|]. simpl.
    destruct (IH (call state c)) as [-> ->].
    destruct state as [st self]. by destruct c. }
  specialize (Hid (new_tracker st0 uuid t0 triggered_by event_type)).
  pose proof (tracks_after st0 uuid t0 triggered_by event_type calls) as H.
  unfold tracker_after in *.
  destruct (foldl call _ calls) as [st self].
  destruct H. destruct Hid as [Hid Hstart]. simpl in *.
  by repeat split.
Qed.

(** The event that [build_event] returns shares its asset lists with the
    tracker: an asset that is added to the tracker afterwards appears among
    the inputs of the event already built, while the [records_in] of that
    event stays as it was; the dictionary of the event changes. *)
Theorem event_shares_asset_lists (st0 : store) (uuid : string) (t0 now : Z)
    (triggered_by : string) (event_type : LineageEventType)
    (calls : list Call) (asset : DataAsset) (n : Z) :
  record_count asset = Some n ->
  n <> 0%Z ->
  let '(st, self) := tracker_after st0 uuid t0 triggered_by event_type calls in
  let ev := build_event self now in
  let '(st', self') := add_input st self asset in
  deref st' (ev_input_assets ev) = (added_inputs calls ++ [asset])%list
  /\ ev_records_in ev = total_count (added_inputs calls)
  /\ total_count (deref st' (ev_input_assets ev)) = (ev_records_in ev + n)%Z
  /\ LineageEvent_to_dict st' ev <> LineageEvent_to_dict st ev.
Proof.
  intros Hcount Hn.
  pose proof (tracks_after st0 uuid t0 triggered_by event_type calls) as H.
  unfold tracker_after in *.
  destruct (foldl call _ calls) as [st self]. destruct H. simpl.
  assert (Hnew : deref (<[input_assets self :=
                           (deref st (input_assets self) ++ [asset])%list]> st)
                       (input_assets self)
                 = (added_inputs calls ++ [asset])%list).
  { unfold deref in *. rewrite list_lookup_insert_eq by lia. simpl.
    by rewrite tracks_inputs0. }
  rewrite Hnew. split; [done|]. split; [done|]. split.
  - rewrite total_count_snoc. unfold add_count. rewrite Hcount.
    destruct (n =? 0)%Z eqn:E; [apply Z.eqb_eq in E; lia|]. by rewrite tracks_in0.
  - unfold LineageEvent_to_dict. simpl. rewrite Hnew, tracks_inputs0.
    intros [= Heq]. apply (f_equal length) in Heq.
    rewrite !length_map, length_app in Heq. simpl in Heq. lia.
Qed.

Lemma event_shares_asset_lists_witness :
  let '(st, self) := tracker_after [] "e-1" 0 "glue:bronze_to_silver"
                                   TRANSFORMATION demo_calls in
  let ev := build_event self 2500000 in
  let '(st', self') := add_input st self silver_dm in
  deref st' (ev_input_assets ev) = [bronze_dm; silver_dm]
  /\ ev_records_in ev = 1000%Z.
Proof.
  pose proof (event_shares_asset_lists [] "e-1" 0 2500000
                "glue:bronze_to_silver" TRANSFORMATION demo_calls silver_dm 995
                eq_refl ltac:(lia)) as H.
  vm_compute in H. vm_compute. destruct H as (H1 & H2 & _). by split.
Defined.
End TrackerRuns.

(** ** Breadth-first search finds what is reachable *)

Section Reachability.
Import Lineage LineageSpec LineageSamples ReachSpec.

Lemma elem_of_indexed side lineage_records loc e :
  e ∈ indexed side lineage_records loc
  <-> e ∈ lineage_records /\ loc ∈ map get_location (side e).
Proof.
  unfold indexed. rewrite list_elem_of_In, in_flat_map. split.
  - intros (r & Hr & Hin). apply in_flat_map in Hin as (a & Ha & Hin).
    destruct (decide (get_location a = loc)) as [<-|]; [|done].
    destruct Hin as [<-|[]]. split; [by apply list_elem_of_In|].
    apply list_elem_of_In, in_map. done.
  - intros [Hr Hloc]. exists e. split; [by apply list_elem_of_In|].
    apply list_elem_of_In, in_map_iff in Hloc as (a & <- & Ha).
    apply in_flat_map. exists a. split; [done|].
    rewrite decide_True by done. by left.
Qed.

Section Search.
Variable index : gmap string (list Event).
Variable next : Event -> list Asset.
Variable depth : Z.
Variable seed : string.
Variable R : string -> string -> Prop.
Hypothesis R_index :
  forall l l',
    R l l' <-> exists e, e ∈ index_get index l
                         /\ l' ∈ map get_location (next e).

Abbreviation loop := (Lineage.loop index next depth).
Abbreviation enqueue := (Lineage.enqueue next).

(** The locations that the events held under a location lead to. *)
Definition successors (events : list Event) : list string :=
  flat_map (fun e => map get_location (next e)) events.

Lemma enqueue_assets (visited : gset string) (d : Z) assets
    (queue : list (string * Z)) :
  foldl (fun queue asset =>
           let loc := get_location asset in
           if bool_decide (loc ∈ visited) then queue
           else (queue ++ [(loc, (d + 1)%Z)])%list) queue assets
  = (queue ++ map (fun l => (l, (d + 1)%Z))
                  (filter (fun l => l ∉ visited) (map get_location assets)))%list.
Proof.
  revert queue. induction assets as [|a assets IH]; intros queue; simpl.
  - by rewrite app_nil_r.
  - rewrite IH, filter_cons. case_bool_decide as Hin.
    + by rewrite decide_False by (intros Hn; by apply Hn).
    + rewrite decide_True by done. simpl. by rewrite <- app_assoc.
Qed.

Lemma enqueue_successors (visited : gset string) d events queue :
  enqueue visited d events queue
  = (queue ++ map (fun l => (l, (d + 1)%Z))
                  (filter (fun l => l ∉ visited) (successors events)))%list.
Proof.
  unfold Lineage.enqueue, successors.
  revert queue. induction events as [|e events IH]; intros queue; simpl.
  - by rewrite app_nil_r.
  - rewrite IH, enqueue_assets, filter_app, map_app, <- app_assoc. done.
Qed.

Lemma successors_step l l' :
  l' ∈ successors (index_get index l) <-> R l l'.
Proof.
  rewrite R_index. unfold successors.
  rewrite list_elem_of_In, in_flat_map. split.
  - intros (e & He & Hl). exists e. by rewrite !list_elem_of_In.
  - intros (e & He & Hl). exists e. by rewrite <- !list_elem_of_In.
Qed.

(** The queue holds entries of depth [k] followed by entries of depth
    [k + 1]. *)
Definition queue_ok (k : Z) (queue : list (string * Z)) : Prop :=
  exists q1 q2,
    queue = (q1 ++ q2)%list
    /\ (forall e, e ∈ q1 -> e.2 = k)
    /\ (forall e, e ∈ q2 -> e.2 = (k + 1)%Z).

Lemma queue_ok_pop k l d rest :
  queue_ok k ((l, d) :: rest) -> (k <= d)%Z /\ queue_ok d rest.
Proof.
  intros (q1 & q2 & Hq & H1 & H2). destruct q1 as [|x q1]; simpl in Hq.
  - subst q2. assert (d = (k + 1)%Z) as -> by (apply (H2 (l, d)); left).
    split; [lia|]. exists rest, []. rewrite app_nil_r.
    split; [done|]. split.
    + intros e He. apply H2. by right.
    + by intros e ?%not_elem_of_nil.
  - injection Hq as <- ->.
    assert (d = k) as -> by (apply (H1 (l, d)); left).
    split; [lia|]. exists q1, q2. split; [done|]. split; [|done].
    intros e He. apply H1. by right.
Qed.

Lemma queue_ok_push k queue new :
  queue_ok k queue ->
  (forall e, e ∈ new -> e.2 = (k + 1)%Z) ->
  queue_ok k (queue ++ new).
Proof.
  intros (q1 & q2 & -> & H1 & H2) Hnew.
  exists q1, (q2 ++ new)%list. rewrite app_assoc. split; [done|].
  split; [done|]. intros e [?|?]%elem_of_app; auto.
Qed.

(** The invariant of the loop: [seen] gives, for each visited location,
    the depth at which it was expanded. *)
Record searching (seen : gmap string Z) (visited : gset string)
    (queue : list (string * Z)) (k : Z) : Prop := {
  searching_dom : dom seen = visited;
  searching_sound : forall l d,
    seen !! l = Some d ->
    (d <= depth)%Z /\ (d <= k)%Z
    /\ exists n, Z.of_nat n = d /\ walk R seed n l;
  searching_queue : queue_ok k queue;
  searching_walk : forall l d,
    (l, d) ∈ queue -> exists n, Z.of_nat n = d /\ walk R seed n l;
  searching_closed : forall l d l',
    seen !! l = Some d -> (d + 1 <= depth)%Z -> R l l' ->
    (exists d', seen !! l' = Some d' /\ (d' <= d + 1)%Z)
    \/ (l', (d + 1)%Z) ∈ queue;
  searching_seed :
    (0 <= depth)%Z ->
    (exists d, seen !! seed = Some d /\ (d <= 0)%Z) \/ (seed, 0%Z) ∈ queue
}.

Lemma searching_start : searching ∅ ∅ [(seed, 0%Z)] 0.
Proof.
  split.
  - apply dom_empty_L.
  - by intros l d ?%lookup_empty_Some.
  - exists [(seed, 0%Z)], []. split; [done|]. split.
    + by intros e ->%list_elem_of_singleton.
    + by intros e ?%not_elem_of_nil.
  - intros l d [= -> ->]%list_elem_of_singleton. exists 0%nat.
    split; [done|constructor].
  - by intros l d l' ?%lookup_empty_Some.
  - intros _. right. left.
Qed.

Lemma searching_skip seen visited l d rest k :
  searching seen visited ((l, d) :: rest) k ->
  l ∈ visited \/ (depth < d)%Z ->
  searching seen visited rest d.
Proof.
  intros [Hdom Hsound Hqueue Hwalk Hclosed Hseed] Hskip.
  destruct (queue_ok_pop _ _ _ _ Hqueue) as [Hk Hrest].
  assert (Hhead : l ∈ visited ->
                  exists d', seen !! l = Some d' /\ (d' <= d)%Z).
  { intros Hin. rewrite <- Hdom in Hin.
    apply elem_of_dom in Hin as [d' Hd'].
    exists d'. split; [done|]. destruct (Hsound _ _ Hd') as (_ & ? & _). lia. }
  split; try done.
  - intros l0 d0 H0. destruct (Hsound _ _ H0) as (? & ? & ?).
    split; [done|]. split; [lia|done].
  - intros l0 d0 H0. apply Hwalk. by right.
  - intros l0 d0 l' H0 Hd0 Hstep.
    destruct (Hclosed _ _ _ H0 Hd0 Hstep) as [?|Hin]; [by left|].
    apply elem_of_cons in Hin as [[= -> <-]|Hin]; [|by right].
    destruct Hskip as [Hvis|Hdeep]; [|lia].
    destruct (Hhead Hvis) as (d' & ? & ?). left. exists d'. split; [done|lia].
  - intros Hdepth. destruct (Hseed Hdepth) as [?|Hin]; [by left|].
    apply elem_of_cons in Hin as [[= <- <-]|Hin]; [|by right].
    destruct Hskip as [Hvis|Hdeep]; [|lia].
    destruct (Hhead Hvis) as (d' & ? & ?). left. by exists d'.
Qed.

Lemma searching_expand seen visited l d rest k :
  searching seen visited ((l, d) :: rest) k ->
  l ∉ visited -> (d <= depth)%Z ->
  searching (<[l := d]> seen) ({[l]} ∪ visited)
            (enqueue ({[l]} ∪ visited) d (index_get index l) rest) d.
Proof.
  intros [Hdom Hsound Hqueue Hwalk Hclosed Hseed] Hnew Hdepth.
  destruct (queue_ok_pop _ _ _ _ Hqueue) as [Hk Hrest].
  rewrite enqueue_successors.
  set (new := map (fun l' => (l', (d + 1)%Z))
                  (filter (fun l' => l' ∉ {[l]} ∪ visited)
                          (successors (index_get index l)))).
  assert (Hnone : seen !! l = None)
    by (apply not_elem_of_dom; by rewrite Hdom).
  destruct (Hwalk l d ltac:(left)) as (n & Hn & Hreach).
  assert (Hin_new : forall l' d',
    (l', d') ∈ new <-> d' = (d + 1)%Z /\ l' ∉ {[l]} ∪ visited /\ R l l').
  { intros l' d'. unfold new. change (map ?f ?l) with (f <$> l).
    rewrite list_elem_of_fmap. split.
    - intros (x & [= -> ->] & Hx). apply list_elem_of_filter in Hx as [? Hx].
      by apply successors_step in Hx.
    - intros (-> & ? & Hx). exists l'. split; [done|].
      apply list_elem_of_filter. split; [done|]. by apply successors_step. }
  split.
  - by rewrite dom_insert_L, Hdom.
  - intros l0 d0. rewrite lookup_insert. case_decide as Heq.
    + intros [= <-]. subst l0. split; [done|]. split; [lia|]. by exists n.
    + intros H0. destruct (Hsound _ _ H0) as (? & ? & ?).
      split; [done|]. split; [lia|done].
  - apply queue_ok_push; [done|].
    intros [l' d'] He. by apply Hin_new in He as [-> _].
  - intros l0 d0 [Hin|Hin]%elem_of_app; [apply Hwalk; by right|].
    apply Hin_new in Hin as (-> & _ & Hstep).
    exists (S n). split; [lia|]. by econstructor.
  - intros l0 d0 l' H0 Hd0 Hstep. rewrite lookup_insert in H0.
    case_decide as Heq.
    + injection H0 as <-. subst l0.
      destruct (decide (l' ∈ {[l]} ∪ visited)) as [Hvis|Hout].
      * left. rewrite lookup_insert. case_decide; [exists d; split; [done|lia]|].
        assert (l' ∈ dom seen) as [d' Hd']%elem_of_dom
          by (rewrite Hdom; set_solver).
        exists d'. split; [done|].
        destruct (Hsound _ _ Hd') as (_ & ? & _). lia.
      * right. apply elem_of_app. right. by apply Hin_new.
    + destruct (Hclosed _ _ _ H0 Hd0 Hstep) as [(d' & Hd' & ?)|Hin].
      * left. exists d'. rewrite lookup_insert_ne; [done|].
        intros <-. by rewrite Hnone in Hd'.
      * apply elem_of_cons in Hin as [[= -> <-]|Hin].
        -- left. exists (d0 + 1)%Z. rewrite lookup_insert_eq. split; [done|lia].
        -- right. apply elem_of_app. by left.
  - intros H0. destruct (Hseed H0) as [(d' & Hd' & ?)|Hin].
    + left. exists d'. rewrite lookup_insert_ne; [done|].
      intros <-. by rewrite Hnone in Hd'.
    + apply elem_of_cons in Hin as [[= <- <-]|Hin].
      * left. exists 0%Z. by rewrite lookup_insert_eq.
      * right. apply elem_of_app. by left.
Qed.

Lemma loop_searching fuel :
  forall seen visited queue k result res visited',
    searching seen visited queue k ->
    loop fuel result visited queue = Some (res, visited') ->
    exists seen' k', searching seen' visited' [] k'.
Proof.
  induction fuel as [|fuel IH];
    intros seen visited queue k result res visited' Hinv Hres.
  - destruct queue as [|[l d] queue]; simpl in Hres; [|done].
    injection Hres as <- <-. by exists seen, k.
  - destruct queue as [|[l d] queue]; simpl in Hres.
    { injection Hres as <- <-. by exists seen, k. }
    destruct (bool_decide (l ∈ visited) || (depth <? d)%Z) eqn:Hskip.
    + eapply IH; [|exact Hres]. eapply searching_skip; [exact Hinv|].
      apply orb_true_iff in Hskip as [H|H].
      * left. by apply bool_decide_eq_true in H.
      * right. by apply Z.ltb_lt.
    + apply orb_false_elim in Hskip as [H1 H2].
      apply bool_decide_eq_false in H1. apply Z.ltb_ge in H2.
      eapply IH; [|exact Hres]. by eapply searching_expand.
Qed.

Lemma searching_complete seen visited k n l :
  searching seen visited [] k ->
  walk R seed n l -> (Z.of_nat n <= depth)%Z ->
  exists d, seen !! l = Some d /\ (d <= Z.of_nat n)%Z.
Proof.
  intros Hinv Hwalk. induction Hwalk as [|n l l' Hwalk IH Hstep]; intros Hn.
  - destruct (searching_seed _ _ _ _ Hinv) as [(d & ? & ?)|Hin]; [lia| |].
    + exists d. split; [done|lia].
    + by apply not_elem_of_nil in Hin.
  - destruct IH as (d & Hd & Hle); [lia|].
    destruct (searching_closed _ _ _ _ Hinv _ _ _ Hd ltac:(lia) Hstep)
      as [(d' & ? & ?)|Hin].
    + exists d'. split; [done|lia].
    + by apply not_elem_of_nil in Hin.
Qed.

(** The visited set at the end of a search from [seed] is what a walk
    of at most [depth] steps reaches. *)
Lemma traverse_visits fuel res visited l :
  traverse index next depth fuel seed = Some (res, visited) ->
  l ∈ visited <-> within R seed depth l.
Proof.
  intros Hres. unfold traverse in Hres.
  destruct (loop_searching _ _ _ _ _ _ _ _ searching_start Hres)
    as (seen & k & Hinv).
  rewrite <- (searching_dom _ _ _ _ Hinv), elem_of_dom. split.
  - intros [d Hd].
    destruct (searching_sound _ _ _ _ Hinv _ _ Hd) as (? & _ & n & <- & ?).
    by exists n.
  - intros (n & Hn & Hwalk).
    destruct (searching_complete _ _ _ _ _ Hinv Hwalk Hn) as (d & Hd & _).
    by exists d.
Qed.

(** The returned events are those that the index holds under a reached
    location. *)
Lemma traverse_returns fuel res visited e :
  traverse index next depth fuel seed = Some (res, visited) ->
  e ∈ res <-> exists l, within R seed depth l /\ e ∈ index_get index l.
Proof.
  intros Hres. pose proof (fun l => traverse_visits _ _ _ l Hres) as Hvis.
  unfold traverse in Hres.
  apply loop_trace in Hres as (trace & _ & _ & -> & ->). simpl.
  rewrite list_elem_of_In, in_flat_map. split.
  - intros (l & Hl & He). exists l. split; [|by apply list_elem_of_In].
    apply Hvis. apply list_elem_of_In in Hl. set_solver.
  - intros (l & Hl & He). exists l. split; [|by apply list_elem_of_In].
    apply Hvis in Hl. apply list_elem_of_In. set_solver.
Qed.
End Search.

Lemma upstream_step_index lineage_records l l' :
  upstream_step lineage_records l l'
  <-> exists e, e ∈ index_get (by_output (new_query lineage_records)) l
                /\ l' ∈ map get_location (get_inputs e).
Proof.
  destruct (new_query_index lineage_records l) as [_ ->].
  unfold upstream_step, output_locations, input_locations.
  split; intros (e & H1 & H2).
  - destruct H2 as [H2 H3]. exists e. by rewrite elem_of_indexed.
  - apply elem_of_indexed in H1 as [H0 H1]. by exists e.
Qed.

Lemma downstream_step_index lineage_records l l' :
  downstream_step lineage_records l l'
  <-> exists e, e ∈ index_get (by_input (new_query lineage_records)) l
                /\ l' ∈ map get_location (get_outputs e).
Proof.
  destruct (new_query_index lineage_records l) as [-> _].
  unfold downstream_step, output_locations, input_locations.
  split; intros (e & H1 & H2).
  - destruct H2 as [H2 H3]. exists e. by rewrite elem_of_indexed.
  - apply elem_of_indexed in H1 as [H0 H1]. by exists e.
Qed.

(** With enough fuel the upstream query returns, and the returned
    list holds exactly the records of the batch that write a location
    reached from the asked one by at most [depth] steps, a step going
    from a location that a record writes to one that this record
    reads. *)
Theorem upstream_finds_reachable lineage_records asset_location depth :
  exists fuel res,
    (forall fuel', fuel <= fuel' ->
       get_upstream fuel' (new_query lineage_records) asset_location depth
       = Some res)
    /\ forall e,
         e ∈ res
         <-> e ∈ lineage_records
             /\ exists l,
                  l ∈ output_locations e
                  /\ within (upstream_step lineage_records)
                            asset_location depth l.
Proof.
  destruct (traverse_terminates (by_output (new_query lineage_records))
              get_inputs depth asset_location) as (fuel & [res visited] & Hres).
  exists fuel, res. split.
  - intros fuel' Hle. unfold get_upstream, upstream_run. by rewrite Hres.
  - intros e.
    rewrite (traverse_returns _ _ _ _ _ (upstream_step_index lineage_records)
               fuel res visited e (Hres fuel (le_n _))).
    split.
    + intros (l & Hl & He).
      destruct (new_query_index lineage_records l) as [_ Hidx].
      rewrite Hidx in He. apply elem_of_indexed in He as [He Hloc].
      split; [done|]. by exists l.
    + intros (He & l & Hloc & Hl). exists l. split; [done|].
      destruct (new_query_index lineage_records l) as [_ ->].
      by apply elem_of_indexed.
Qed.

(** With enough fuel the downstream query returns, and the
    returned list holds exactly the records of the batch that read a
    location reached from the asked one by at most [depth] steps, a step
    going from a location that a record reads to one that this record
    writes. *)
Theorem downstream_finds_reachable lineage_records asset_location depth :
  exists fuel res,
    (forall fuel', fuel <= fuel' ->
       get_downstream fuel' (new_query lineage_records) asset_location depth
       = Some res)
    /\ forall e,
         e ∈ res
         <-> e ∈ lineage_records
             /\ exists l,
                  l ∈ input_locations e
                  /\ within (downstream_step lineage_records)
                            asset_location depth l.
Proof.
  destruct (traverse_terminates (by_input (new_query lineage_records))
              get_outputs depth asset_location) as (fuel & [res visited] & Hres).
  exists fuel, res. split.
  - intros fuel' Hle. unfold get_downstream, downstream_run. by rewrite Hres.
  - intros e.
    rewrite (traverse_returns _ _ _ _ _ (downstream_step_index lineage_records)
               fuel res visited e (Hres fuel (le_n _))).
    split.
    + intros (l & Hl & He).
      destruct (new_query_index lineage_records l) as [Hidx _].
      rewrite Hidx in He. apply elem_of_indexed in He as [He Hloc].
      split; [done|]. by exists l.
    + intros (He & l & Hloc & Hl). exists l. split; [done|].
      destruct (new_query_index lineage_records l) as [-> _].
      by apply elem_of_indexed.
Qed.
End Reachability.
